(** * GraphJin: the auth middleware (package auth) and the remote field
      resolver (core/remote_api.go), as a shallow embedding.

    Go values are modelled as follows.
    - A nilable interface or function value is an [option]: [None] is [nil].
    - [error] is an inductive type with one constructor per package-level
      sentinel, so that [err == Err401] is constructor equality.
    - [context.Context] is the chain of [WithValue] frames, newest first.
    - A handler runs in the monad [Eff]: it produces the sequence of
      observable calls (logger, [http.Error], downstream handler) and
      either returns or panics. *)

From Stdlib Require Import ZArith String Ascii List Lia.
From stdpp Require Import base option gmap strings list pretty.

Local Open Scope string_scope.
Local Open Scope list_scope.
Local Open Scope Z_scope.

(** ** Errors *)

Inductive error : Type :=
| Err401                    (* var Err401 = errors.New("401 unauthorized") *)
| ErrNoAuthDefined          (* var ErrNoAuthDefined = errors.New("no auth defined") *)
| ErrOther (msg : string).  (* a value made by fmt.Errorf or by another package *)

#[global] Instance error_eq_dec : EqDecision error.
Proof. solve_decision. Defined.

(** [err.Error()] *)
Definition error_msg (e : error) : string :=
  match e with
  | Err401 => "401 unauthorized"
  | ErrNoAuthDefined => "no auth defined"
  | ErrOther msg => msg
  end.

(** ** Contexts *)

(** Modelled from the spec: the context keys [core.UserIDProviderKey],
    [core.UserIDKey] and [core.UserRoleKey] are constants of package core;
    the identity context holds UserID, UserIDProvider and UserRole, under
    three distinct keys.  [OtherKey] stands for the keys of other
    packages. *)
Inductive ctxKey : Type :=
| UserIDProviderKey
| UserIDKey
| UserRoleKey
| OtherKey (name : string).

#[global] Instance ctxKey_eq_dec : EqDecision ctxKey.
Proof. solve_decision. Defined.

(** An [interface{}] value. *)
Inductive any : Type :=
| AnyNil
| AnyString (s : string)
| AnyInt (n : Z)
| AnyBool (b : bool).

#[global] Instance any_eq_dec : EqDecision any.
Proof. solve_decision. Defined.

Module context.

(** A non-nil [context.Context]: its [WithValue] frames, newest first. *)
Definition Context : Type := list (ctxKey * any).

Definition Background : Context := [].

Definition WithValue (parent : Context) (key : ctxKey) (val : any) : Context :=
  (key, val) :: parent.

Fixpoint Value (c : Context) (key : ctxKey) : any :=
  match c with
  | [] => AnyNil
  | (k, v) :: parent => if decide (k = key) then v else Value parent key
  end.

End context.

(** ** Requests *)

Module http.

(** [http.Header] is [map[string][]string]. *)
Record Request : Type := mkRequest {
  Method : string;
  URL : string;
  Header : gmap string (list string);
  ctx : context.Context;
}.

(** [r.WithContext(c)]: a copy of [r] that carries [c]. *)
Definition WithContext (r : Request) (c : context.Context) : Request :=
  {| Method := Method r; URL := URL r; Header := Header r; ctx := c |}.

(** [r.Context()] *)
Definition Context (r : Request) : context.Context := ctx r.

Definition StatusUnauthorized : Z := 401.

End http.

(** ** Effects *)

Inductive event : Type :=
| EvLogError (msg type : string) (err : error)   (* log.Error(msg, type, err) *)
| EvHttpError (body : string) (code : Z)         (* http.Error(w, body, code) *)
| EvPrintf (text : string)                       (* Log.Printf *)
| EvServe (who : string) (r : http.Request)      (* a handler was run on r *)
| EvRoundTrip (r : http.Request)                 (* client.Do(r) *)
| EvWrite (data : string).                       (* any other write to w *)

Inductive outcome (A : Type) : Type :=
| Returns (a : A)
| Panics (why : string).
Arguments Returns {A} a.
Arguments Panics {A} why.

Definition Eff (A : Type) : Type := list event * outcome A.

Definition ret {A} (a : A) : Eff A := ([], Returns a).

Definition bind {A B} (m : Eff A) (k : A -> Eff B) : Eff B :=
  match m with
  | (tr, Returns a) => let (tr', o) := k a in (tr ++ tr', o)
  | (tr, Panics why) => (tr, Panics why)
  end.

Definition emit (e : event) : Eff unit := ([e], Returns tt).

Definition panic {A} (why : string) : Eff A := ([], Panics why).

Notation "'do' x <- m ;; k" := (bind m (fun x => k))
  (at level 10, x name, m at level 99, k at level 200).
Notation "'do' ' p <- m ;; k" := (bind m (fun x => match x with p => k end))
  (at level 10, p pattern, m at level 99, k at level 200).
Notation "'exec' m ;; k" := (bind m (fun _ => k))
  (at level 10, m at level 99, k at level 200).

Definition trace {A} (m : Eff A) : list event := fst m.
Definition result {A} (m : Eff A) : outcome A := snd m.

Definition nil_deref : string :=
  "runtime error: invalid memory address or nil pointer dereference".

(** ** Package auth: configuration *)

Module RailsConfig.
Record t : Type := mk {
  Version : string;
  SecretKeyBase : string;
  URL : string;
  Password : string;
  MaxIdle : Z;
  MaxActive : Z;
  Salt : string;
  SignSalt : string;
  AuthSalt : string;
}.
End RailsConfig.

Module HeaderConfig.
Record t : Type := mk {
  Name : string;
  Value : string;
  Exists : bool;
}.
End HeaderConfig.

(** [provider.JWTConfig] is declared in another package; only the
    capability constructor reads it. *)
Inductive JWTConfig : Type := mkJWTConfig (settings : list (string * string)).

Record Auth : Type := mkAuth {
  Development : bool;
  Name : string;
  Type_ : string;
  Cookie : string;
  Rails : RailsConfig.t;
  JWT : JWTConfig;
  Header : HeaderConfig.t;
}.

(** [type HandlerFunc func(w, r) (context.Context, error)].  The response
    writer is implicit: what a function does to it shows in its trace. *)
Definition HandlerFunc : Type :=
  http.Request -> Eff (option context.Context * option error).

(** [http.Handler] *)
Definition Handler : Type := http.Request -> Eff unit.

Record Options : Type := mkOptions { AuthFailBlock : bool }.

(** [*zap.Logger] *)
Inductive Logger : Type := ZapLogger.

(** [http.Error(w, error, code)] of the Go standard library, which sends
    the status [code] and [error] as a plain-text body; the call is
    recorded with its arguments. *)
Definition http_Error (body : string) (code : Z) : Eff unit :=
  emit (EvHttpError body code).

(** ** Identity accessors *)

(** A method call on a nil interface value panics. *)
Definition ctx_Value (c : option context.Context) (key : ctxKey) : Eff any :=
  match c with
  | None => panic nil_deref
  | Some c => ret (context.Value c key)
  end.

Definition IsAuth (c : option context.Context) : Eff bool :=
  do v <- ctx_Value c UserIDKey ;;
  ret (negb (bool_decide (v = AnyNil))).

Definition UserID (c : option context.Context) : Eff any :=
  ctx_Value c UserIDKey.

(** ** strconv.Atoi (Go standard library), for a 64-bit [int] *)

Module strconv.

Definition ErrSyntax : error := ErrOther "invalid syntax".
Definition ErrRange : error := ErrOther "value out of range".

Definition digit (a : ascii) : option Z :=
  let n := Z.of_N (N_of_ascii a) in
  if (48 <=? n) && (n <=? 57) then Some (n - 48) else None.

(** The digits of [s] read in base ten after the value [acc]. *)
Fixpoint digits (acc : Z) (s : string) : option Z :=
  match s with
  | EmptyString => Some acc
  | String a s' =>
      match digit a with
      | Some d => digits (10 * acc + d) s'
      | None => None
      end
  end.

Definition maxInt : Z := 2 ^ 63 - 1.
Definition minInt : Z := - 2 ^ 63.

(** The magnitude after the optional sign: no digit at all or a character
    that is not a digit is a syntax error. *)
Definition magnitude (s : string) : option Z :=
  match s with
  | EmptyString => None
  | _ => digits 0 s
  end.

(** The optional sign: [(neg, rest)]. *)
Definition sign (s : string) : bool * string :=
  match s with
  | String a s' =>
      if Ascii.eqb a "+" then (false, s')
      else if Ascii.eqb a "-" then (true, s')
      else (false, s)
  | EmptyString => (false, s)
  end.

Definition Atoi (s : string) : Z * option error :=
  let '(neg, body) := sign s in
  match magnitude body with
  | None => (0, Some ErrSyntax)
  | Some un =>
      if neg then
        if un <=? 2 ^ 63 then (- un, None) else (minInt, Some ErrRange)
      else
        if un <? 2 ^ 63 then (un, None) else (maxInt, Some ErrRange)
  end.

End strconv.

Definition UserIDInt (c : option context.Context) : Eff Z :=
  do u <- UserID c ;;
  match u with
  | AnyString v =>
      match strconv.Atoi v with
      | (n, None) => ret n
      | (_, Some _) => ret (-1)
      end
  | _ => ret (-1)
  end.

(** ** Package auth: strategies, selector and wrapper *)

Section Auth.

(** [textproto.CanonicalMIMEHeaderKey] of the Go standard library. *)
Variable CanonicalMIMEHeaderKey : string -> string.

(** [websocket.IsWebSocketUpgrade] of gorilla/websocket. *)
Variable IsWebSocketUpgrade : http.Request -> bool.

(** The capability constructors of the cookie-store and token
    strategies, which live in files of their own. *)
Variable RailsHandler : Auth -> option HandlerFunc * option error.
Variable JwtHandler : Auth -> option HandlerFunc * option error.

(** [h.Get(key)]: the first value under the canonical form of [key]. *)
Definition Header_Get (h : gmap string (list string)) (key : string) : string :=
  match h !! CanonicalMIMEHeaderKey key with
  | Some (v :: _) => v
  | _ => ""
  end.

(** The closure returned by [SimpleHandler]. *)
Definition simple_identity : HandlerFunc :=
  fun r : http.Request =>
    let c := http.Context r in
    let userIDProvider := Header_Get (http.Header r) "X-User-ID-Provider" in
    let c :=
      if bool_decide (userIDProvider <> "")
      then context.WithValue c UserIDProviderKey (AnyString userIDProvider)
      else c in
    let userID := Header_Get (http.Header r) "X-User-ID" in
    let c :=
      if bool_decide (userID <> "")
      then context.WithValue c UserIDKey (AnyString userID)
      else c in
    let userRole := Header_Get (http.Header r) "X-User-Role" in
    let c :=
      if bool_decide (userRole <> "")
      then context.WithValue c UserRoleKey (AnyString userRole)
      else c in
    ret (Some c, None).

Definition SimpleHandler (ac : Auth) : option HandlerFunc * option error :=
  (Some simple_identity, None).

(** The closure returned by [HeaderHandler]. *)
Definition header_check (hdr : HeaderConfig.t) : HandlerFunc :=
  fun r : http.Request =>
    let value := Header_Get (http.Header r) (HeaderConfig.Name hdr) in
    let fo1 :=
      if HeaderConfig.Exists hdr
      then bool_decide (value = "")
      else bool_decide (value <> HeaderConfig.Value hdr) in
    if fo1 then ret (None, Some Err401) else ret (None, None).

Definition HeaderHandler (ac : Auth) : option HandlerFunc * option error :=
  let hdr := Header ac in
  if bool_decide (HeaderConfig.Name hdr = "") then
    (None, Some (ErrOther ("auth '" +:+ Name ac +:+ "': no header.name defined")))
  else if negb (HeaderConfig.Exists hdr) && bool_decide (HeaderConfig.Value hdr = "") then
    (None, Some (ErrOther ("auth '" +:+ Name ac +:+ "': no header.value defined")))
  else
    (Some (header_check hdr), None).

(** The second switch of [NewAuthHandlerFunc] either calls a constructor
    or returns at once. *)
Inductive selected : Type :=
| Built (res : option HandlerFunc * option error)
| ReturnsEarly (err : error).

Definition select_by_type (ac : Auth) : selected :=
  let ty := Type_ ac in
  if bool_decide (ty = "rails") then Built (RailsHandler ac)
  else if bool_decide (ty = "jwt") then Built (JwtHandler ac)
  else if bool_decide (ty = "header") then Built (HeaderHandler ac)
  else if bool_decide (ty = "") || bool_decide (ty = "none") then
    ReturnsEarly ErrNoAuthDefined
  else
    ReturnsEarly (ErrOther ("auth: unknown auth type: " +:+ ty)).

Definition NewAuthHandlerFunc (ac : Auth) : option HandlerFunc * option error :=
  if Development ac then SimpleHandler ac
  else
    match select_by_type ac with
    | ReturnsEarly err => (None, Some err)
    | Built (_, Some err) =>
        (None, Some (ErrOther (Type_ ac +:+ ": " +:+ error_msg err)))
    | Built (h, None) => (h, None)
    end.

(** Calling a nil function value panics. *)
Definition call (h : option HandlerFunc) (r : http.Request)
  : Eff (option context.Context * option error) :=
  match h with
  | Some f => f r
  | None => panic nil_deref
  end.

(** The body of the handler [ah] after the upgrade test: run the
    strategy, log, then reject or forward. *)
Definition authenticate (ac : Auth) (log : option Logger) (opt : Options)
    (h : option HandlerFunc) (next : Handler) : Handler :=
  fun r : http.Request =>
    do '(c, err) <- call h r ;;
    exec (match err, log with
          | Some e, Some _ => emit (EvLogError "Auth" (Type_ ac) e)
          | _, _ => ret tt
          end) ;;
    if bool_decide (err = Some Err401) then
      http_Error "401 unauthorized" http.StatusUnauthorized
    else
      do blocked <- (if AuthFailBlock opt
                     then do a <- IsAuth c ;; ret (negb a)
                     else ret false) ;;
      if (blocked : bool) then
        http_Error "401 unauthorized" http.StatusUnauthorized
      else
        match c with
        | Some c' => next (http.WithContext r c')
        | None => next r
        end.

(** The handler [ah] that the middleware of [NewAuth] builds around [next]. *)
Definition auth_handler (ac : Auth) (log : option Logger) (opt : Options)
    (h : option HandlerFunc) (wsAuthSupported : bool) (next : Handler) : Handler :=
  fun r : http.Request =>
    if wsAuthSupported && IsWebSocketUpgrade r then next r
    else authenticate ac log opt h next r.

Definition Middleware : Type := Handler -> Handler.

(** [hFn ...HandlerFunc] is the list of the variadic arguments. *)
Definition NewAuth (ac : Auth) (log : option Logger) (opt : Options)
    (hFn : list (option HandlerFunc)) : option Middleware * option error :=
  match hFn with
  | Some h :: _ => (Some (auth_handler ac log opt (Some h) true), None)
  | _ =>
      match NewAuthHandlerFunc ac with
      | (_, Some err) => (None, Some err)
      | (h, None) => (Some (auth_handler ac log opt h false), None)
      end
  end.

End Auth.

(** ** strings.ReplaceAll (Go standard library) *)

Module strings_.

(** [new] before every byte of [s] and after the last one: what Go does
    for an empty [old] (there rune by rune, which is the same on ASCII). *)
Fixpoint around_each (new s : string) : string :=
  match s with
  | EmptyString => new
  | String a s' => new +:+ String a (around_each new s')
  end.

(** Left-to-right scan; [skip] counts the bytes of a match still to drop. *)
Fixpoint replace_from (old new : string) (skip : nat) (s : string) : string :=
  match s with
  | EmptyString => EmptyString
  | String a s' =>
      match skip with
      | S k => replace_from old new k s'
      | O =>
          if String.prefix old s
          then new +:+ replace_from old new (Nat.pred (String.length old)) s'
          else String a (replace_from old new 0 s')
      end
  end.

Definition ReplaceAll (s old new : string) : string :=
  match old with
  | EmptyString => around_each new s
  | _ => replace_from old new 0 s
  end.

(** [old] occurs somewhere in [s]. *)
Fixpoint Contains (s old : string) : bool :=
  String.prefix old s ||
  match s with
  | EmptyString => false
  | String _ s' => Contains s' old
  end.

End strings_.

(** ** core/remote_api.go *)

Module remote.

Record remoteHdrs : Type := mkHdr {
  Name : string;
  Value : string;
}.

Record remoteAPI : Type := mkAPI {
  URL : string;
  Debug : bool;
  PassHeaders : list string;
  SetHeaders : list remoteHdrs;
}.

(** Modelled from the spec: [ResolverReq] is declared in another file of
    package core; the resolver is given an ID, and in debug mode prints
    through the logger of the request, taken to be present. *)
Record ResolverReq : Type := mkReq {
  ID : string;
}.

(** [*http.Response]; [Body] is what reading the body to its end gives:
    the bytes, and the error that stopped the read if there was one. *)
Record Response : Type := mkResponse {
  StatusCode : Z;
  Body : string * option error;
}.

(** [io.ReadAll(res.Body)] *)
Definition ReadAll (body : string * option error) : string * option error := body.

End remote.

Definition newline : string := String (ascii_of_nat 10) EmptyString.

Section RemoteAPI.

Variable CanonicalMIMEHeaderKey : string -> string.

(** [url.Parse], through which [http.NewRequestWithContext] validates. *)
Variable url_Parse : string -> option error.

(** The transport: what the network answers to a request. *)
Variable client_Do : http.Request -> remote.Response + error.

(** [httputil.DumpRequestOut(req, true)], [httputil.DumpResponse(res, true)]. *)
Variable DumpRequestOut : http.Request -> string + error.
Variable DumpResponse : remote.Response -> string + error.

(** [jsn.ValidateBytes] of internal/jsn: [None] for well-formed JSON. *)
Variable ValidateBytes : string -> option error.

(** [http.NewRequestWithContext(c, method, url, nil)] for a valid method. *)
Definition NewRequestWithContext (c : option context.Context) (method url : string)
  : http.Request + error :=
  match c with
  | None => inr (ErrOther "net/http: nil Context")
  | Some c =>
      match url_Parse url with
      | Some err => inr err
      | None =>
          inl {| http.Method := method; http.URL := url;
                 http.Header := ∅; http.ctx := c |}
      end
  end.

(** [req.Header.Set(key, value)] *)
Definition Header_Set (req : http.Request) (key value : string) : http.Request :=
  {| http.Method := http.Method req; http.URL := http.URL req;
     http.Header := <[CanonicalMIMEHeaderKey key := [value]]> (http.Header req);
     http.ctx := http.ctx req |}.

(** The [if r.Debug] block: the error it returns with, if any. *)
Definition debug_dump (r : remote.remoteAPI) (req : http.Request)
    (res : remote.Response) : Eff (option error) :=
  if remote.Debug r then
    match DumpRequestOut req with
    | inr err => ret (Some err)
    | inl reqDump =>
        match DumpResponse res with
        | inr err => ret (Some err)
        | inl resDump =>
            exec emit (EvPrintf ("DBG Remote Request:" +:+ newline +:+ reqDump
                                   +:+ newline +:+ resDump)) ;;
            ret None
        end
    end
  else ret None.

(** What [Resolve] does with the response once it has one. *)
Definition read_response (r : remote.remoteAPI) (req : http.Request)
    (res : remote.Response) : Eff (option string * option error) :=
  do dbg <- debug_dump r req res ;;
  match dbg with
  | Some err => ret (None, Some err)
  | None =>
      if bool_decide (remote.StatusCode res <> 200) then
        ret (None, Some (ErrOther ("server responded with a "
                                     +:+ pretty (remote.StatusCode res))))
      else
        match remote.ReadAll (remote.Body res) with
        | (_, Some err) => ret (None, Some err)
        | (b, None) =>
            match ValidateBytes b with
            | Some err => ret (None, Some err)
            | None => ret (Some b, None)
            end
        end
  end.

Definition Resolve (r : remote.remoteAPI) (c : option context.Context)
    (rr : remote.ResolverReq) : Eff (option string * option error) :=
  let uri := strings_.ReplaceAll (remote.URL r) "$id" (remote.ID rr) in
  match NewRequestWithContext c "GET" uri with
  | inr err => ret (None, Some err)
  | inl req =>
      let req :=
        fold_left (fun q v => Header_Set q (remote.Name v) (remote.Value v))
                  (remote.SetHeaders r) req in
      exec emit (EvRoundTrip req) ;;
      match client_Do req with
      | inr err =>
          ret (None, Some (ErrOther ("failed to connect to '" +:+ uri +:+ "': "
                                       +:+ error_msg err)))
      | inl res => read_response r req res
      end
  end.

End RemoteAPI.

(** ** newRemoteAPI *)

(** An [interface{}] value of a resolver configuration, by its dynamic
    type. *)
Inductive confValue : Type :=
| ConfString (s : string)
| ConfBool (b : bool)
| ConfStrings (l : list string)             (* []string *)
| ConfStringMap (m : gmap string string)    (* map[string]string *)
| ConfOther (kind : string).                (* a value of any other type *)

Section NewRemoteAPI.

(** The order in which [range] visits the entries of a map, which Go
    leaves unspecified. *)
Variable range_map : gmap string string -> list (string * string).

(** [var ra remoteAPI] *)
Definition zero_remoteAPI : remote.remoteAPI := remote.mkAPI "" false [] [].

(** [ra.SetHeaders = append(ra.SetHeaders, remoteHdrs{Name: k, Value: v1})] *)
Definition append_header (ra : remote.remoteAPI) (kv : string * string)
  : remote.remoteAPI :=
  remote.mkAPI (remote.URL ra) (remote.Debug ra) (remote.PassHeaders ra)
    (remote.SetHeaders ra ++ [remote.mkHdr (fst kv) (snd kv)]).

Definition newRemoteAPI (v : gmap string confValue)
  : option remote.remoteAPI * option error :=
  let ra := zero_remoteAPI in
  let ra :=
    match v !! "url" with
    | Some (ConfString s) =>
        remote.mkAPI s (remote.Debug ra) (remote.PassHeaders ra) (remote.SetHeaders ra)
    | _ => ra
    end in
  let ra :=
    match v !! "debug" with
    | Some (ConfBool b) =>
        remote.mkAPI (remote.URL ra) b (remote.PassHeaders ra) (remote.SetHeaders ra)
    | _ => ra
    end in
  let ra :=
    match v !! "pass_headers" with
    | Some (ConfStrings l) =>
        remote.mkAPI (remote.URL ra) (remote.Debug ra) l (remote.SetHeaders ra)
    | _ => ra
    end in
  let ra :=
    match v !! "set_headers" with
    | Some (ConfStringMap m) => fold_left append_header (range_map m) ra
    | _ => ra
    end in
  (Some ra, None).

End NewRemoteAPI.

(** ** Auxiliary definitions for the statements *)

(** What [SimpleHandler] adds for one header: a frame when the header
    has a value, nothing otherwise. *)
Definition extend (key : ctxKey) (value : string) (c : context.Context)
  : context.Context :=
  if bool_decide (value <> "") then context.WithValue c key (AnyString value) else c.

(** A numeric string: an optional sign, then one decimal digit or more. *)
Fixpoint all_digits (s : string) : bool :=
  match s with
  | EmptyString => true
  | String a s' => bool_decide (is_Some (strconv.digit a)) && all_digits s'
  end.

Definition numeric (s : string) : bool :=
  let body := snd (strconv.sign s) in
  negb (bool_decide (body = "")) && all_digits body.

(** What the wrapper logs for the error of a strategy. *)
Definition logged (ac : Auth) (log : option Logger) (err : option error) : list event :=
  match err, log with
  | Some e, Some _ => [EvLogError "Auth" (Type_ ac) e]
  | _, _ => []
  end.

(** [m] run after the events [tr]. *)
Definition after {A} (tr : list event) (m : Eff A) : Eff A :=
  (tr ++ trace m, result m).

(** The request handed downstream: with the strategy's context when there
    is one, as it came otherwise. *)
Definition forwarded (r : http.Request) (c : option context.Context) : http.Request :=
  match c with
  | Some c' => http.WithContext r c'
  | None => r
  end.

(** The rejection: [http.Error(w, "401 unauthorized", 401)] and return. *)
Definition rejects : Eff unit := ([EvHttpError "401 unauthorized" 401], Returns tt).

(** [UserID] is set in a context that is there. *)
Definition has_UserID (c : option context.Context) : bool :=
  match c with
  | Some c' => negb (bool_decide (context.Value c' UserIDKey = AnyNil))
  | None => false
  end.

(** The log events without their type tag. *)
Definition untag (e : event) : event :=
  match e with
  | EvLogError msg _ err => EvLogError msg "" err
  | _ => e
  end.

(** The auth types that the selector knows. *)
Definition known_type (ty : string) : bool :=
  bool_decide (ty ∈ ["rails"; "jwt"; "header"; ""; "none"]).

(** The header sub-configuration names a header and sets exactly one of
    [Exists] and [Value]: the rule as the specification words it. *)
Definition header_rule_as_specified (hdr : HeaderConfig.t) : bool :=
  negb (bool_decide (HeaderConfig.Name hdr = "")) &&
  xorb (HeaderConfig.Exists hdr) (negb (bool_decide (HeaderConfig.Value hdr = ""))).

(** The rule that [HeaderHandler] checks: a header name, and [Exists] or a
    [Value] (or both). *)
Definition header_rule_checked (hdr : HeaderConfig.t) : bool :=
  negb (bool_decide (HeaderConfig.Name hdr = "")) &&
  (HeaderConfig.Exists hdr || negb (bool_decide (HeaderConfig.Value hdr = ""))).

(** When the selector is to fail, given the rule for header configurations. *)
Definition selector_fails (header_rule : HeaderConfig.t -> bool)
    (rails jwt : Auth -> option HandlerFunc * option error) (ac : Auth) : Prop :=
  (Type_ ac = "header" /\ header_rule (Header ac) = false) \/
  (Type_ ac = "" \/ Type_ ac = "none") \/
  known_type (Type_ ac) = false \/
  (Type_ ac = "jwt" /\ snd (jwt ac) <> None) \/
  (Type_ ac = "rails" /\ snd (rails ac) <> None).

(** The request that the resolver sends: a GET to [uri] that carries the
    configured headers, set in order. *)
Definition outgoing (canon : string -> string) (r : remote.remoteAPI)
    (c : context.Context) (uri : string) : http.Request :=
  fold_left (fun q v => Header_Set canon q (remote.Name v) (remote.Value v))
            (remote.SetHeaders r)
            {| http.Method := "GET"; http.URL := uri; http.Header := ∅; http.ctx := c |}.

(** The strategy that [NewAuth] wraps, and whether the upgrade bypass is
    on: the first variadic argument when it is not nil, the selected
    strategy otherwise. *)
Definition wrapped (canon : string -> string)
    (rails jwt : Auth -> option HandlerFunc * option error)
    (ac : Auth) (hFn : list (option HandlerFunc)) : option HandlerFunc * bool :=
  match hFn with
  | Some h :: _ => (Some h, true)
  | _ => (fst (NewAuthHandlerFunc canon rails jwt ac), false)
  end.

(** The four settings that [newRemoteAPI] reads. *)
Definition conf_url (v : gmap string confValue) : string :=
  match v !! "url" with Some (ConfString s) => s | _ => "" end.

Definition conf_debug (v : gmap string confValue) : bool :=
  match v !! "debug" with Some (ConfBool b) => b | _ => false end.

Definition conf_pass_headers (v : gmap string confValue) : list string :=
  match v !! "pass_headers" with Some (ConfStrings l) => l | _ => [] end.

Definition conf_set_headers (v : gmap string confValue) : gmap string string :=
  match v !! "set_headers" with Some (ConfStringMap m) => m | _ => ∅ end.

Definition to_header (kv : string * string) : remote.remoteHdrs :=
  remote.mkHdr (fst kv) (snd kv).

(** The same resolver with the debug flag set to [b]. *)
Definition with_debug (b : bool) (r : remote.remoteAPI) : remote.remoteAPI :=
  remote.mkAPI (remote.URL r) b (remote.PassHeaders r) (remote.SetHeaders r).

(** The line that the debug block prints. *)
Definition debug_line (reqDump resDump : string) : string :=
  "DBG Remote Request:" +:+ newline +:+ reqDump +:+ newline +:+ resDump.

(** The canonical name of a configured header. *)
Definition canonical_name (canon : string -> string) (h : remote.remoteHdrs) : string :=
  canon (remote.Name h).

(** The header map of the request that the resolver sends. *)
Definition header_entry (canon : string -> string) (h : remote.remoteHdrs)
  : string * list string :=
  (canon (remote.Name h), [remote.Value h]).

Definition headers_of (canon : string -> string) (hs : list remote.remoteHdrs)
  : gmap string (list string) :=
  fold_left (fun m h => <[canon (remote.Name h) := [remote.Value h]]> m) hs ∅.

(** A strategy was handed to [NewAuth]: the first variadic argument is
    there and is not nil. *)
Definition supplied (hFn : list (option HandlerFunc)) : bool :=
  match hFn with
  | Some _ :: _ => true
  | _ => false
  end.

(** The test of the header strategy on a request. *)
Definition header_passes (canon : string -> string) (hdr : HeaderConfig.t)
    (r : http.Request) : bool :=
  let value := Header_Get canon (http.Header r) (HeaderConfig.Name hdr) in
  if HeaderConfig.Exists hdr
  then negb (bool_decide (value = ""))
  else bool_decide (value = HeaderConfig.Value hdr).

(** ** Concrete configurations and requests, used in the examples *)

Definition no_rails : RailsConfig.t := RailsConfig.mk "" "" "" "" 0 0 "" "" "".

Definition header_auth (name value : string) (must_exist : bool) : Auth :=
  {| Development := false; Name := "api"; Type_ := "header"; Cookie := "";
     Rails := no_rails; JWT := mkJWTConfig [];
     Header := HeaderConfig.mk name value must_exist |}.

Definition typed_auth (dev : bool) (type : string) : Auth :=
  {| Development := dev; Name := "api"; Type_ := type; Cookie := "";
     Rails := no_rails; JWT := mkJWTConfig [];
     Header := HeaderConfig.mk "" "" false |}.

Definition request_with (headers : list (string * list string)) : http.Request :=
  {| http.Method := "GET"; http.URL := "/api/v1/graphql";
     http.Header := list_to_map headers; http.ctx := context.Background |}.

(** A downstream handler that records the request it is given. *)
Definition downstream : Handler := fun r => emit (EvServe "next" r).

(** Capability constructors that fail. *)
Definition unavailable (ac : Auth) : option HandlerFunc * option error :=
  (None, Some (ErrOther "unavailable")).

(** Header keys taken as already canonical. *)
Definition same_key (key : string) : string := key.

Definition asks_upgrade (r : http.Request) : bool :=
  bool_decide (Header_Get same_key (http.Header r) "Upgrade" = "websocket").

(** A strategy that fails with a transport error and no context. *)
Definition store_down : HandlerFunc :=
  fun _ => ret (None, Some (ErrOther "cookie store: connection refused")).

(** A transport that knows one user, and a JSON check that only looks at
    the first byte. *)
Definition one_user (q : http.Request) : remote.Response + error :=
  if bool_decide (http.URL q = "http://users/42/profile")
  then inl (remote.mkResponse 200 ("{}", None))
  else inl (remote.mkResponse 404 ("not found", None)).

Definition starts_as_object (b : string) : option error :=
  if String.prefix "{" b then None else Some (ErrOther "invalid json").

Definition no_dump {A} (x : A) : string + error := inr (ErrOther "no dump").

Definition users_api : remote.remoteAPI :=
  remote.mkAPI "http://users/$id/profile" false [] [remote.mkHdr "Accept" "application/json"].

(** A resolver configuration as it is read from a file, and a second
    enumeration order for maps. *)
Definition users_headers : gmap string string :=
  list_to_map [("Accept", "application/json"); ("X-Api-Version", "2")].

Definition users_conf : gmap string confValue :=
  list_to_map [("url", ConfString "http://users/$id/profile");
               ("debug", ConfStrings ["yes"]);
               ("set_headers", ConfStringMap users_headers);
               ("timeout", ConfOther "int")].

Definition backwards (m : gmap string string) : list (string * string) :=
  reverse (map_to_list m).

Definition parses (url : string) : option error := None.

(** * Properties *)

(** ** The effect monad *)

Lemma bind_ret_l {A B} (a : A) (k : A -> Eff B) : bind (ret a) k = k a.
Proof. unfold bind, ret. by destruct (k a). Qed.

Lemma bind_panic_l {A B} (why : string) (k : A -> Eff B) :
  bind (panic why) k = panic why.
Proof. reflexivity. Qed.

Lemma bind_emit (e : event) {B} (k : unit -> Eff B) :
  bind (emit e) k = (e :: trace (k tt), result (k tt)).
Proof. unfold bind, emit, trace, result. by destruct (k tt). Qed.

Lemma bind_returns {A B} (tr : list event) (a : A) (k : A -> Eff B) :
  bind (tr, Returns a) k = (tr ++ trace (k a), result (k a)).
Proof. unfold bind, trace, result. by destruct (k a). Qed.

Lemma bind_panics {A B} (tr : list event) (why : string) (k : A -> Eff B) :
  bind (tr, Panics why) k = (tr, Panics why).
Proof. reflexivity. Qed.

Lemma eff_eta {A} (m : Eff A) : (trace m, result m) = m.
Proof. by destruct m. Qed.

(** ** Contexts *)

Lemma Value_WithValue_eq (c : context.Context) (k : ctxKey) (v : any) :
  context.Value (context.WithValue c k v) k = v.
Proof. simpl. by rewrite decide_True. Qed.

Lemma Value_WithValue_ne (c : context.Context) (k k' : ctxKey) (v : any) :
  k <> k' -> context.Value (context.WithValue c k v) k' = context.Value c k'.
Proof. intros Hne. simpl. by rewrite decide_False. Qed.

Lemma Value_extend_eq key value c :
  context.Value (extend key value c) key =
    if bool_decide (value <> "") then AnyString value else context.Value c key.
Proof.
  unfold extend. case_bool_decide; [apply Value_WithValue_eq | done].
Qed.

Lemma Value_extend_ne key key' value c :
  key <> key' -> context.Value (extend key value c) key' = context.Value c key'.
Proof.
  intros Hne. unfold extend. case_bool_decide; [by apply Value_WithValue_ne | done].
Qed.

Lemma length_extend key value c :
  length (extend key value c) =
    ((if bool_decide (value <> "") then 1 else 0) + length c)%nat.
Proof. unfold extend. by case_bool_decide. Qed.

(** ** Strategies *)

Section StrategyFacts.

Variable canon : string -> string.

(** C4.  The closure that [HeaderHandler] returns for an accepted
    configuration: with [Exists] set it succeeds exactly when the named
    header has a non-empty value; otherwise it succeeds exactly when the
    header value is the configured [Value], byte for byte; whenever it
    does not succeed it returns the sentinel [Err401]; and it always
    returns a nil context, without any other effect. *)
Theorem header_strategy_decides (ac : Auth) (h : HandlerFunc) (r : http.Request) :
  HeaderHandler canon ac = (Some h, None) ->
  let hdr := Header ac in
  let value := Header_Get canon (http.Header r) (HeaderConfig.Name hdr) in
  (HeaderConfig.Exists hdr = true ->
     (h r = ret (None, None) <-> value <> "")) /\
  (HeaderConfig.Exists hdr = false ->
     (h r = ret (None, None) <-> value = HeaderConfig.Value hdr)) /\
  (h r <> ret (None, None) -> h r = ret (None, Some Err401)) /\
  (exists err, h r = ret (None, err)).
Proof.
  unfold HeaderHandler. intros Hh.
  case_bool_decide; [discriminate |].
  destruct (negb _ && _); [discriminate |].
  injection Hh as <-. cbv zeta. unfold header_check.
  destruct (HeaderConfig.Exists (Header ac)); case_bool_decide;
    repeat split; try discriminate; try done; eauto.
Qed.

(** What the development strategy returns, frame by frame. *)
Lemma simple_identity_run (r : http.Request) :
  simple_identity canon r =
    ret (Some (extend UserRoleKey (Header_Get canon (http.Header r) "X-User-Role")
                 (extend UserIDKey (Header_Get canon (http.Header r) "X-User-ID")
                    (extend UserIDProviderKey
                       (Header_Get canon (http.Header r) "X-User-ID-Provider")
                       (http.Context r)))), None).
Proof. reflexivity. Qed.

End StrategyFacts.

(** ** strconv.Atoi *)

Lemma digit_range (a : ascii) (d : Z) : strconv.digit a = Some d -> 0 <= d <= 9.
Proof.
  unfold strconv.digit. destruct (_ && _) eqn:E; [| discriminate].
  intros [= <-]. apply andb_true_iff in E as [?%Z.leb_le ?%Z.leb_le]. lia.
Qed.

Lemma digit_pretty_N_char (d : N) :
  (d < 10)%N -> strconv.digit (pretty_N_char d) = Some (Z.of_N d).
Proof.
  intros Hd.
  assert (d = 0 \/ d = 1 \/ d = 2 \/ d = 3 \/ d = 4 \/ d = 5 \/ d = 6
          \/ d = 7 \/ d = 8 \/ d = 9)%N as Hcases by lia.
  repeat (destruct Hcases as [-> | Hcases]; [reflexivity |]).
  by subst.
Qed.

Lemma magnitude_Some_iff (s : string) :
  is_Some (strconv.magnitude s) <-> s <> "" /\ all_digits s = true.
Proof.
  assert (forall s acc, is_Some (strconv.digits acc s) <-> all_digits s = true) as Hd.
  { clear s. induction s as [| a s IH]; intros acc; simpl.
    - split; eauto.
    - destruct (strconv.digit a) as [d |] eqn:E.
      + rewrite IH. rewrite bool_decide_true by eauto. done.
      + rewrite bool_decide_false by (intros [? ?]; discriminate). simpl.
        split; [intros [? ?] |]; discriminate. }
  destruct s as [| a s].
  - simpl. split; [intros [? ?]; discriminate | intros [? _]; done].
  - unfold strconv.magnitude. rewrite Hd. split; [| tauto]. intros ?. split; done.
Qed.

(** The digits of [x], written by [pretty], read back as [x]. *)
Lemma digits_pretty_N_go (x : N) :
  exists k : Z, 0 <= k /\
    forall acc s, strconv.digits acc (pretty_N_go x s)
                  = strconv.digits (acc * 10 ^ k + Z.of_N x) s.
Proof.
  induction (N.lt_wf_0 x) as [x _ IH].
  destruct (decide (x = 0%N)) as [-> | Hx].
  - exists 0. split; [lia |]. intros acc s. rewrite pretty_N_go_0. f_equal. lia.
  - destruct (IH (x `div` 10)%N) as (k & Hk & Hgo).
    { apply N.div_lt; lia. }
    exists (k + 1). split; [lia |]. intros acc s.
    rewrite pretty_N_go_step by lia. rewrite Hgo. simpl.
    rewrite digit_pretty_N_char by (apply N.mod_lt; lia).
    f_equal. rewrite Z.pow_add_r by lia.
    pose proof (N.div_mod x 10 ltac:(lia)) as Hdm.
    apply (f_equal Z.of_N) in Hdm. rewrite N2Z.inj_add, N2Z.inj_mul in Hdm.
    change (Z.of_N 10) with 10 in Hdm. lia.
Qed.

Lemma magnitude_pretty_N (x : N) :
  (0 < x)%N -> strconv.magnitude (pretty x) = Some (Z.of_N x).
Proof.
  intros Hx. unfold pretty, pretty_N. rewrite decide_False by lia.
  destruct (digits_pretty_N_go x) as (k & _ & Hgo).
  specialize (Hgo 0 ""). simpl in Hgo. rewrite Z.add_0_l in Hgo.
  unfold strconv.magnitude. destruct (pretty_N_go x "") eqn:E; [| exact Hgo].
  simpl in Hgo. injection Hgo as Hgo. lia.
Qed.

(** A string that starts with a digit carries no sign. *)
Lemma sign_of_magnitude (s : string) (un : Z) :
  strconv.magnitude s = Some un -> strconv.sign s = (false, s).
Proof.
  destruct s as [| a s]; [done |]. unfold strconv.magnitude. simpl.
  destruct (strconv.digit a) as [d |] eqn:E; [| discriminate]. intros _.
  destruct (Ascii.eqb_spec a "+") as [-> | _]; [discriminate |].
  destruct (Ascii.eqb_spec a "-") as [-> | _]; [discriminate |].
  reflexivity.
Qed.

(** [Atoi] reads back every [int] from its decimal notation. *)
Lemma Atoi_pretty (n : Z) :
  strconv.minInt <= n <= strconv.maxInt -> strconv.Atoi (pretty n) = (n, None).
Proof.
  unfold strconv.minInt, strconv.maxInt. intros Hn.
  destruct n as [| p | p]; [reflexivity | |].
  - unfold pretty, pretty_Z. change (pretty p) with (pretty (N.pos p)).
    pose proof (magnitude_pretty_N (N.pos p) ltac:(lia)) as Hm.
    unfold strconv.Atoi. rewrite (sign_of_magnitude _ _ Hm), Hm.
    change (Z.of_N (N.pos p)) with (Z.pos p).
    destruct (Z.ltb_spec (Z.pos p) (2 ^ 63)); [done | lia].
  - unfold pretty, pretty_Z. change (pretty p) with (pretty (N.pos p)).
    pose proof (magnitude_pretty_N (N.pos p) ltac:(lia)) as Hm.
    unfold strconv.Atoi.
    change ("-" +:+ pretty (N.pos p)) with (String "-" (pretty (N.pos p))).
    change (strconv.sign (String "-" (pretty (N.pos p))))
      with (true, pretty (N.pos p)).
    cbv beta iota. rewrite Hm.
    change (Z.of_N (N.pos p)) with (Z.pos p).
    destruct (Z.leb_spec (Z.pos p) (2 ^ 63)); [done | lia].
Qed.

Lemma Atoi_not_numeric (s : string) :
  numeric s = false -> strconv.Atoi s = (0, Some strconv.ErrSyntax).
Proof.
  unfold numeric, strconv.Atoi. destruct (strconv.sign s) as [neg body]. simpl.
  intros Hn. destruct (strconv.magnitude body) as [un |] eqn:E; [| done].
  assert (is_Some (strconv.magnitude body)) as [Hne Hd]%magnitude_Some_iff by eauto.
  rewrite Hd, bool_decide_false in Hn by done. discriminate.
Qed.

(** ** Identity accessors *)

Lemma Value_absent (c : context.Context) (key : ctxKey) :
  key ∉ c.*1 -> context.Value c key = AnyNil.
Proof.
  induction c as [| [k v] c IH]; [done |]. simpl. intros Hnotin.
  rewrite not_elem_of_cons in Hnotin. destruct Hnotin as [Hne Hnotin].
  rewrite decide_False by congruence. by apply IH.
Qed.

Lemma UserIDInt_unfold (c : context.Context) :
  UserIDInt (Some c) =
    ret (match context.Value c UserIDKey with
         | AnyString v =>
             match strconv.Atoi v with
             | (n, None) => n
             | (_, Some _) => -1
             end
         | _ => -1
         end).
Proof.
  unfold UserIDInt, UserID, ctx_Value. rewrite bind_ret_l.
  destruct (context.Value c UserIDKey) as [| v | |]; try done.
  by destruct (strconv.Atoi v) as [n [e |]].
Qed.

(** C8, amended.  On every context that is not nil [UserIDInt] returns,
    never panicking.  It returns
    [n] when UserID is the decimal notation of an [int] [n], and more
    generally whatever [strconv.Atoi] parses from a UserID string; it
    returns -1 when UserID is nil, when no frame sets it, when it is the
    empty string, when it is a string that is not numeric (such as abc),
    when [Atoi] fails on it for any reason, and when it is not a string. *)
Theorem UserIDInt_parse_or_sentinel (c : context.Context) :
  let uid := context.Value c UserIDKey in
  (exists n, UserIDInt (Some c) = ret n) /\
  (forall n, strconv.minInt <= n <= strconv.maxInt ->
     uid = AnyString (pretty n) -> UserIDInt (Some c) = ret n) /\
  (forall s n, uid = AnyString s -> strconv.Atoi s = (n, None) ->
     UserIDInt (Some c) = ret n) /\
  (uid = AnyNil -> UserIDInt (Some c) = ret (-1)) /\
  (UserIDKey ∉ c.*1 -> UserIDInt (Some c) = ret (-1)) /\
  (uid = AnyString "" -> UserIDInt (Some c) = ret (-1)) /\
  (uid = AnyString "abc" -> UserIDInt (Some c) = ret (-1)) /\
  (forall s, uid = AnyString s -> numeric s = false ->
     UserIDInt (Some c) = ret (-1)) /\
  (forall s, uid = AnyString s -> snd (strconv.Atoi s) <> None ->
     UserIDInt (Some c) = ret (-1)) /\
  ((forall s, uid <> AnyString s) -> UserIDInt (Some c) = ret (-1)).
Proof.
  cbv zeta. rewrite UserIDInt_unfold. repeat split.
  - eauto.
  - intros n Hn ->. by rewrite Atoi_pretty.
  - intros s n -> ->. done.
  - by intros ->.
  - intros Habs. by rewrite Value_absent.
  - by intros ->.
  - by intros ->.
  - intros s -> Hs. by rewrite Atoi_not_numeric.
  - intros s -> Hs. destruct (strconv.Atoi s) as [n [e |]]; done.
  - intros Hs. destruct (context.Value c UserIDKey) as [| v | |]; try done.
    by destruct (Hs v).
Qed.

(** ** The wrapper *)

Section WrapperFacts.

Variable canon : string -> string.
Variable isUpgrade : http.Request -> bool.
Variable rails jwt : Auth -> option HandlerFunc * option error.

Lemma IsAuth_Some (c : context.Context) :
  IsAuth (Some c) = ret (has_UserID (Some c)).
Proof. unfold IsAuth, ctx_Value. by rewrite bind_ret_l. Qed.

Lemma IsAuth_nil : IsAuth None = panic nil_deref.
Proof. reflexivity. Qed.

Lemma after_nil {A} (m : Eff A) : after [] m = m.
Proof. unfold after. simpl. apply eff_eta. Qed.

Lemma bind_after {A B} (tr : list event) (a : A) (k : A -> Eff B) :
  bind (tr, Returns a) k = after tr (k a).
Proof. apply bind_returns. Qed.

Lemma after_after {A} (tr1 tr2 : list event) (m : Eff A) :
  after tr1 (after tr2 m) = after (tr1 ++ tr2) m.
Proof. unfold after. simpl. by rewrite app_assoc. Qed.

(** The whole of [authenticate], by what the strategy did. *)
Lemma authenticate_returns ac log opt h next r tr c err :
  call h r = (tr, Returns (c, err)) ->
  authenticate ac log opt h next r =
    after (tr ++ logged ac log err)
      (if bool_decide (err = Some Err401) then rejects
       else if AuthFailBlock opt then
         match c with
         | None => panic nil_deref
         | Some _ => if has_UserID c then next (forwarded r c) else rejects
         end
       else next (forwarded r c)).
Proof.
  intros Hcall. unfold authenticate. rewrite Hcall, bind_after.
  rewrite <- after_after. f_equal.
  assert (forall B (k : unit -> Eff B),
            bind (match err, log with
                  | Some e, Some _ => emit (EvLogError "Auth" (Type_ ac) e)
                  | _, _ => ret tt
                  end) k = after (logged ac log err) (k tt)) as ->.
  { intros B k. unfold logged. destruct err, log;
      rewrite ?bind_ret_l, ?after_nil; try done. apply bind_emit. }
  f_equal. case_bool_decide; [done |].
  destruct (AuthFailBlock opt).
  - destruct c as [c |].
    + rewrite IsAuth_Some, !bind_ret_l. by destruct (has_UserID (Some c)).
    + by rewrite IsAuth_nil.
  - rewrite bind_ret_l. by destruct c.
Qed.

Lemma authenticate_panics ac log opt h next r tr why :
  call h r = (tr, Panics why) ->
  authenticate ac log opt h next r = (tr, Panics why).
Proof. intros Hcall. unfold authenticate. by rewrite Hcall. Qed.

(** Every middleware that [NewAuth] returns is an [auth_handler]: around
    the supplied strategy with the upgrade bypass on, or around the
    selected strategy with the bypass off. *)
Lemma NewAuth_builds ac log opt hFn mw :
  NewAuth canon isUpgrade rails jwt ac log opt hFn = (Some mw, None) ->
  (exists h rest, hFn = Some h :: rest /\
                  mw = auth_handler isUpgrade ac log opt (Some h) true) \/
  (exists h, (hFn = [] \/ exists rest, hFn = None :: rest) /\
             NewAuthHandlerFunc canon rails jwt ac = (h, None) /\
             mw = auth_handler isUpgrade ac log opt h false).
Proof.
  unfold NewAuth. destruct hFn as [| [h |] rest].
  - destruct (NewAuthHandlerFunc canon rails jwt ac) as [h [e |]]; [done |].
    intros [= <-]. right. eauto.
  - intros [= <-]. left. eauto.
  - destruct (NewAuthHandlerFunc canon rails jwt ac) as [h [e |]]; [done |].
    intros [= <-]. right. eauto 6.
Qed.

Lemma auth_handler_ordinary ac log opt h ws next r :
  ws && isUpgrade r = false ->
  auth_handler isUpgrade ac log opt h ws next r = authenticate ac log opt h next r.
Proof. intros Hby. unfold auth_handler. by rewrite Hby. Qed.

Lemma NewAuth_wrapped ac log opt hFn mw :
  NewAuth canon isUpgrade rails jwt ac log opt hFn = (Some mw, None) ->
  mw = auth_handler isUpgrade ac log opt
         (fst (wrapped canon rails jwt ac hFn)) (snd (wrapped canon rails jwt ac hFn)).
Proof.
  unfold NewAuth, wrapped. destruct hFn as [| [h |] rest].
  - destruct (NewAuthHandlerFunc canon rails jwt ac) as [h [e |]]; [done |].
    by intros [= <-].
  - by intros [= <-].
  - destruct (NewAuthHandlerFunc canon rails jwt ac) as [h [e |]]; [done |].
    by intros [= <-].
Qed.

Lemma auth_handler_sentinel ac log opt h ws next r tr c :
  ws && isUpgrade r = false ->
  call h r = (tr, Returns (c, Some Err401)) ->
  auth_handler isUpgrade ac log opt h ws next r =
    (tr ++ logged ac log (Some Err401) ++ [EvHttpError "401 unauthorized" 401],
     Returns tt).
Proof.
  intros Hby Hcall. rewrite auth_handler_ordinary by done.
  rewrite (authenticate_returns _ _ _ _ _ _ _ _ _ Hcall).
  rewrite bool_decide_true by done. unfold after, rejects. simpl.
  by rewrite <- app_assoc.
Qed.

(** C5.  Take any middleware that [NewAuth] returns and a request that
    reaches its strategy (it is not an upgrade request on a wrapper with the
    bypass on).  If the strategy returns the sentinel [Err401], then after
    what the strategy itself did the wrapper logs the error if it has a
    logger, calls [http.Error(w, "401 unauthorized", 401)] and returns; the
    outcome is the same whatever the downstream handler is, which is never
    run. *)
Theorem sentinel_rejects_with_401 ac log opt hFn mw next r tr c :
  NewAuth canon isUpgrade rails jwt ac log opt hFn = (Some mw, None) ->
  snd (wrapped canon rails jwt ac hFn) && isUpgrade r = false ->
  call (fst (wrapped canon rails jwt ac hFn)) r = (tr, Returns (c, Some Err401)) ->
  mw next r =
    (tr ++ logged ac log (Some Err401) ++ [EvHttpError "401 unauthorized" 401],
     Returns tt) /\
  forall next', mw next' r = mw next r.
Proof.
  intros ->%NewAuth_wrapped Hby Hcall.
  split; [by eapply auth_handler_sentinel |].
  intros n. by rewrite !(auth_handler_sentinel _ _ _ _ _ _ _ _ _ Hby Hcall).
Qed.

(** C6.  On an upgrade request, a wrapper built with a supplied strategy
    does exactly what the downstream handler does on the request as it
    came: whatever the strategy is or would do, and whatever the options
    are.  A wrapper built without one (no argument, or a nil one) runs the
    ordinary path on the selected strategy. *)
Theorem upgrade_bypasses_supplied_strategy ac log opt next r :
  isUpgrade r = true ->
  (forall h rest, exists mw,
      NewAuth canon isUpgrade rails jwt ac log opt (Some h :: rest) = (Some mw, None) /\
      mw next r = next r) /\
  (forall hFn mw,
      hFn = [] \/ (exists rest, hFn = None :: rest) ->
      NewAuth canon isUpgrade rails jwt ac log opt hFn = (Some mw, None) ->
      exists h, NewAuthHandlerFunc canon rails jwt ac = (h, None) /\
                mw next r = authenticate ac log opt h next r).
Proof.
  intros Hup. split.
  - intros h rest. eexists. split; [reflexivity |].
    unfold auth_handler. by rewrite Hup.
  - intros hFn mw Hno Hnew.
    apply NewAuth_builds in Hnew as [(h & rest & -> & _) | (h & _ & Hsel & ->)].
    + destruct Hno as [? | [? ?]]; discriminate.
    + exists h. split; [done |]. by apply auth_handler_ordinary.
Qed.

Lemma authenticate_untagged ac ac' log opt h next r :
  result (authenticate ac' log opt h next r) = result (authenticate ac log opt h next r) /\
  untag <$> trace (authenticate ac' log opt h next r) =
    untag <$> trace (authenticate ac log opt h next r).
Proof.
  destruct (call h r) as [tr [[c err] | why]] eqn:Hcall.
  - rewrite !(authenticate_returns _ _ _ _ _ _ _ _ _ Hcall).
    unfold after. simpl. split; [done |].
    rewrite !fmap_app. do 2 f_equal. unfold logged. by destruct err, log.
  - by rewrite !(authenticate_panics _ _ _ _ _ _ _ _ Hcall).
Qed.

Lemma authenticate_same_tag ac ac' log opt h next r :
  Type_ ac' = Type_ ac \/ log = None ->
  authenticate ac' log opt h next r = authenticate ac log opt h next r.
Proof.
  intros Htag. destruct (call h r) as [tr [[c err] | why]] eqn:Hcall.
  - rewrite !(authenticate_returns _ _ _ _ _ _ _ _ _ Hcall).
    do 2 f_equal. unfold logged. destruct Htag as [-> | ->]; [done |].
    by destruct err.
  - by rewrite !(authenticate_panics _ _ _ _ _ _ _ _ Hcall).
Qed.

(** C10.  With a supplied strategy, [NewAuth] returns a middleware and a
    nil error for every configuration: it does not depend on the
    capability constructors or on the header rules, since the selector is
    not run.  The configuration shows only in the type tag of the log
    events: two configurations give middlewares with the same outcome and,
    tags apart, the same events; with the same [Type], or without a
    logger, they behave the same. *)
Theorem supplied_strategy_skips_validation ac log opt h rest :
  exists mw,
    NewAuth canon isUpgrade rails jwt ac log opt (Some h :: rest) = (Some mw, None) /\
    (forall canon' rails' jwt',
        NewAuth canon' isUpgrade rails' jwt' ac log opt (Some h :: rest)
        = (Some mw, None)) /\
    (forall ac', exists mw',
        NewAuth canon isUpgrade rails jwt ac' log opt (Some h :: rest)
        = (Some mw', None) /\
        forall next r,
          result (mw' next r) = result (mw next r) /\
          untag <$> trace (mw' next r) = untag <$> trace (mw next r) /\
          (Type_ ac' = Type_ ac \/ log = None -> mw' next r = mw next r)).
Proof.
  eexists. split; [reflexivity |]. split; [reflexivity |].
  intros ac'. eexists. split; [reflexivity |]. intros next r.
  unfold auth_handler. destruct (true && isUpgrade r); [done |].
  pose proof (authenticate_untagged ac ac' log opt (Some h) next r) as [? ?].
  repeat split; try done. apply authenticate_same_tag.
Qed.

(** A result other than the sentinel, where the wrapper gets as far as a
    decision: it forwards when blocking is off or UserID is set, and
    rejects otherwise; the error, if any, is logged when there is a logger
    and changes nothing else. *)
Lemma non_sentinel_outcome ac log opt h ws next r tr c err :
  ws && isUpgrade r = false ->
  call h r = (tr, Returns (c, err)) ->
  err <> Some Err401 ->
  AuthFailBlock opt = false \/ c <> None ->
  auth_handler isUpgrade ac log opt h ws next r =
    after (tr ++ logged ac log err)
      (if negb (AuthFailBlock opt) || has_UserID c
       then next (forwarded r c) else rejects).
Proof.
  intros Hby Hcall Herr Hc. rewrite auth_handler_ordinary by done.
  rewrite (authenticate_returns _ _ _ _ _ _ _ _ _ Hcall).
  rewrite bool_decide_false by done. f_equal.
  destruct (AuthFailBlock opt); [| done]. simpl.
  destruct c; [done |]. by destruct Hc.
Qed.

(** The same result without a context, under blocking: [IsAuth] is called
    on the nil context and the handler panics. *)
Lemma absent_context_under_fail_block ac log opt h ws next r tr err :
  ws && isUpgrade r = false ->
  call h r = (tr, Returns (None, err)) ->
  err <> Some Err401 ->
  AuthFailBlock opt = true ->
  auth_handler isUpgrade ac log opt h ws next r =
    (tr ++ logged ac log err, Panics nil_deref).
Proof.
  intros Hby Hcall Herr Hblock. rewrite auth_handler_ordinary by done.
  rewrite (authenticate_returns _ _ _ _ _ _ _ _ _ Hcall).
  rewrite bool_decide_false by done. rewrite Hblock.
  unfold after. simpl. by rewrite app_nil_r.
Qed.

(** C7.  [SimpleHandler] always yields a strategy and no error.  On every
    request that strategy has no effect and returns a nil error with the
    request's context extended, in order, by the provider, user-id and role
    headers that have a value: looking a key up in the result gives the
    header value for an identity key whose header has one and what the
    request's context gave in every other case; the result has one frame
    more per header with a value; with no such header it is the request's
    context itself.  A wrapper built in development mode therefore forwards
    with that context unless blocking is on and UserID is not set, in which
    case it rejects. *)
Theorem simple_strategy_copies_headers (ac : Auth) (r : http.Request) :
  let get := Header_Get canon (http.Header r) in
  let provider := get "X-User-ID-Provider" in
  let userID := get "X-User-ID" in
  let role := get "X-User-Role" in
  let has (v : string) := bool_decide (v <> "") in
  exists (h : HandlerFunc) (c : context.Context),
    SimpleHandler canon ac = (Some h, None) /\
    h r = ret (Some c, None) /\
    c = extend UserRoleKey role
          (extend UserIDKey userID
             (extend UserIDProviderKey provider (http.Context r))) /\
    context.Value c UserIDProviderKey =
      (if has provider then AnyString provider
       else context.Value (http.Context r) UserIDProviderKey) /\
    context.Value c UserIDKey =
      (if has userID then AnyString userID
       else context.Value (http.Context r) UserIDKey) /\
    context.Value c UserRoleKey =
      (if has role then AnyString role
       else context.Value (http.Context r) UserRoleKey) /\
    (forall name, context.Value c (OtherKey name) =
                    context.Value (http.Context r) (OtherKey name)) /\
    length c = (length (filter (fun v => v <> "") [provider; userID; role])
                + length (http.Context r))%nat /\
    (provider = "" -> userID = "" -> role = "" -> c = http.Context r) /\
    (forall log opt next,
        Development ac = true ->
        exists mw,
          NewAuth canon isUpgrade rails jwt ac log opt [] = (Some mw, None) /\
          mw next r =
            if negb (AuthFailBlock opt) || has_UserID (Some c)
            then next (http.WithContext r c) else rejects).
Proof.
  cbv zeta. eexists _, _. split; [reflexivity |].
  split; [apply simple_identity_run |]. split; [reflexivity |].
  set (c0 := http.Context r).
  set (p := Header_Get canon (http.Header r) "X-User-ID-Provider").
  set (u := Header_Get canon (http.Header r) "X-User-ID").
  set (ro := Header_Get canon (http.Header r) "X-User-Role").
  split_and!.
  - rewrite !Value_extend_ne by discriminate. apply Value_extend_eq.
  - rewrite Value_extend_ne by discriminate. rewrite Value_extend_eq.
    case_bool_decide; [done |]. by rewrite Value_extend_ne.
  - rewrite Value_extend_eq. case_bool_decide; [done |].
    by rewrite !Value_extend_ne.
  - intros name. by rewrite !Value_extend_ne.
  - rewrite !length_extend. simpl.
    rewrite !filter_cons, filter_nil.
    repeat case_bool_decide; repeat case_decide; simpl; try lia; contradiction.
  - intros -> -> ->. reflexivity.
  - intros log opt next Hdev. eexists. split.
    + unfold NewAuth, NewAuthHandlerFunc. rewrite Hdev. reflexivity.
    + erewrite non_sentinel_outcome with (tr := []) (err := None);
        [| done | apply simple_identity_run | done | by right].
      apply after_nil.
Qed.

End WrapperFacts.

(** ** The selector *)

Section SelectorFacts.

Variable canon : string -> string.
Variable rails jwt : Auth -> option HandlerFunc * option error.

Lemma HeaderHandler_error_iff ac :
  snd (HeaderHandler canon ac) <> None <-> header_rule_checked (Header ac) = false.
Proof.
  unfold HeaderHandler, header_rule_checked.
  destruct (HeaderConfig.Exists (Header ac)); repeat case_bool_decide; simpl;
    split; done.
Qed.

Lemma HeaderHandler_no_strategy_on_error ac :
  snd (HeaderHandler canon ac) <> None -> fst (HeaderHandler canon ac) = None.
Proof.
  unfold HeaderHandler.
  destruct (HeaderConfig.Exists (Header ac)); repeat case_bool_decide; simpl; done.
Qed.

Local Ltac by_cases :=
  repeat split; intros;
  repeat match goal with
         | H : _ \/ _ |- _ => destruct H
         | H : _ /\ _ |- _ => destruct H
         end;
  try done; try congruence; try tauto.

Lemma unknown_type_cases ty :
  known_type ty = false <->
    ty <> "rails" /\ ty <> "jwt" /\ ty <> "header" /\ ty <> "" /\ ty <> "none".
Proof.
  unfold known_type. rewrite bool_decide_eq_false.
  rewrite !not_elem_of_cons. pose proof (not_elem_of_nil ty). tauto.
Qed.

Lemma selector_fails_cases rule ac :
  selector_fails rule rails jwt ac <->
    if bool_decide (Type_ ac = "rails") then snd (rails ac) <> None
    else if bool_decide (Type_ ac = "jwt") then snd (jwt ac) <> None
    else if bool_decide (Type_ ac = "header") then rule (Header ac) = false
    else True.
Proof.
  unfold selector_fails. rewrite unknown_type_cases.
  destruct (decide (Type_ ac = "")); destruct (decide (Type_ ac = "none"));
    repeat case_bool_decide; split; try tauto; try congruence.
  all: intros [[? ?] | [[? | ?] | [? | [[? ?] | [? ?]]]]]; try congruence; tauto.
Qed.

(** C3, amended.  With [Development] off, the selector returns an error,
    and then no strategy, exactly when: [Type] is header and the header
    name is empty or neither [Exists] nor a [Value] is set; or [Type] is
    empty or none, and then the error is [ErrNoAuthDefined], which it is
    in no other case; or [Type] is none of rails, jwt, header, empty and
    none, and then the error says that the type is unknown; or [Type] is
    jwt or rails and the constructor of that capability fails. *)
Theorem selector_configuration_errors (ac : Auth) :
  Development ac = false ->
  let res := NewAuthHandlerFunc canon rails jwt ac in
  (snd res <> None <-> selector_fails header_rule_checked rails jwt ac) /\
  (snd res <> None -> fst res = None) /\
  (snd res = Some ErrNoAuthDefined <-> Type_ ac = "" \/ Type_ ac = "none") /\
  (known_type (Type_ ac) = false ->
     res = (None, Some (ErrOther ("auth: unknown auth type: " +:+ Type_ ac)))).
Proof.
  intros Hdev. cbv zeta. rewrite selector_fails_cases, unknown_type_cases.
  unfold NewAuthHandlerFunc, select_by_type. rewrite Hdev.
  pose proof (HeaderHandler_error_iff ac) as Hhdr.
  pose proof (HeaderHandler_no_strategy_on_error ac) as Hhdr'.
  case_bool_decide as Hrails.
  { destruct (rails ac) as [h [e |]]; simpl; by_cases. }
  case_bool_decide as Hjwt.
  { destruct (jwt ac) as [h [e |]]; simpl; by_cases. }
  case_bool_decide as Hheader.
  { destruct (HeaderHandler canon ac) as [h [e |]]; simpl in *; by_cases.
    by apply Hhdr. }
  destruct (bool_decide_reflect (Type_ ac = "")) as [Hempty | Hempty];
    [| destruct (bool_decide_reflect (Type_ ac = "none")) as [Hnone | Hnone]];
    simpl; by_cases.
Qed.

End SelectorFacts.

(** ** The remote resolver *)

Lemma prefix_cons (a b : ascii) (s1 s2 : string) :
  String.prefix (String a s1) (String b s2)
  = if ascii_dec a b then String.prefix s1 s2 else false.
Proof. reflexivity. Qed.

Lemma prefix_id_here (q : string) :
  String.prefix "$id" (String "$" (String "i" (String "d" q))) = true.
Proof. by destruct q. Qed.

Lemma prefix_id_straddle (a : ascii) (p q : string) :
  String.prefix "$id" (String a p) = false ->
  String.prefix "$id" (String a (p +:+ "$id" +:+ q)) = false.
Proof.
  rewrite !prefix_cons. destruct (ascii_dec "$" a); [| done].
  destruct p as [| b p]; [done |].
  change (String b p +:+ "$id" +:+ q) with (String b (p +:+ "$id" +:+ q)).
  rewrite !prefix_cons. destruct (ascii_dec "i" b); [| done].
  destruct p as [| c p]; [done |].
  change (String c p +:+ "$id" +:+ q) with (String c (p +:+ "$id" +:+ q)).
  rewrite !prefix_cons. destruct (ascii_dec "d" c); [| done].
  by destruct p.
Qed.

(** The first occurrence of the placeholder is replaced, and the scan goes
    on after it. *)
Lemma ReplaceAll_placeholder (p q id : string) :
  strings_.Contains p "$id" = false ->
  strings_.ReplaceAll (p +:+ "$id" +:+ q) "$id" id
  = p +:+ id +:+ strings_.ReplaceAll q "$id" id.
Proof.
  unfold strings_.ReplaceAll. induction p as [| a p IH]; intros Hno.
  - change ("" +:+ "$id" +:+ q) with (String "$" (String "i" (String "d" q))).
    cbn [strings_.replace_from]. rewrite prefix_id_here. reflexivity.
  - cbn [strings_.Contains] in Hno. apply orb_false_iff in Hno as [Hpre Hno].
    change (String a p +:+ "$id" +:+ q) with (String a (p +:+ "$id" +:+ q)).
    cbn [strings_.replace_from]. rewrite (prefix_id_straddle _ _ _ Hpre).
    rewrite IH by done. reflexivity.
Qed.

(** A template without the placeholder is left as it is. *)
Lemma ReplaceAll_without_placeholder (s id : string) :
  strings_.Contains s "$id" = false -> strings_.ReplaceAll s "$id" id = s.
Proof.
  unfold strings_.ReplaceAll. induction s as [| a s IH]; intros Hno; [done |].
  cbn [strings_.Contains] in Hno. apply orb_false_iff in Hno as [Hpre Hno].
  cbn [strings_.replace_from]. rewrite Hpre, IH by done. reflexivity.
Qed.

Section ResolverFacts.

Variable canon : string -> string.
Variable url_Parse : string -> option error.
Variable client_Do : http.Request -> remote.Response + error.
Variable DumpRequestOut : http.Request -> string + error.
Variable DumpResponse : remote.Response -> string + error.
Variable ValidateBytes : string -> option error.

Local Abbreviation resolve :=
  (Resolve canon url_Parse client_Do DumpRequestOut DumpResponse ValidateBytes).

Lemma outgoing_line r c uri :
  http.Method (outgoing canon r c uri) = "GET" /\
  http.URL (outgoing canon r c uri) = uri /\
  http.ctx (outgoing canon r c uri) = c.
Proof.
  unfold outgoing.
  generalize (@empty (gmap string (list string)) _) as hs.
  induction (remote.SetHeaders r) as [| v vs IH]; intros hs; [done |].
  simpl. apply IH.
Qed.

Lemma Resolve_unfold r c rr :
  resolve r c rr =
    let uri := strings_.ReplaceAll (remote.URL r) "$id" (remote.ID rr) in
    match c with
    | None => ret (None, Some (ErrOther "net/http: nil Context"))
    | Some c' =>
        match url_Parse uri with
        | Some err => ret (None, Some err)
        | None =>
            let req := outgoing canon r c' uri in
            after [EvRoundTrip req]
              match client_Do req with
              | inr err =>
                  ret (None, Some (ErrOther ("failed to connect to '" +:+ uri
                                               +:+ "': " +:+ error_msg err)))
              | inl res =>
                  read_response DumpRequestOut DumpResponse ValidateBytes r req res
              end
        end
    end.
Proof.
  unfold Resolve, NewRequestWithContext. cbv zeta.
  destruct c as [c' |]; [| done].
  destruct (url_Parse _); [done |].
  fold (outgoing canon r c'
          (strings_.ReplaceAll (remote.URL r) "$id" (remote.ID rr))).
  apply bind_emit.
Qed.

(** The debug block sends nothing; it fails exactly when a dump fails. *)
Lemma debug_dump_cases r req res :
  exists tr dbg,
    debug_dump DumpRequestOut DumpResponse r req res = (tr, Returns dbg) /\
    (forall q, EvRoundTrip q ∉ tr) /\
    (dbg = None <->
       (remote.Debug r = true ->
          (exists d, DumpRequestOut req = inl d) /\
          (exists d, DumpResponse res = inl d))).
Proof.
  unfold debug_dump. destruct (remote.Debug r).
  - destruct (DumpRequestOut req) as [d1 | e1].
    + destruct (DumpResponse res) as [d2 | e2].
      * eexists _, _. split; [reflexivity |]. split.
        -- intros q [[=] | []%elem_of_nil]%elem_of_cons.
        -- split; eauto.
      * eexists _, _. split; [reflexivity |]. split.
        -- intros q []%elem_of_nil.
        -- split; [done |]. intros H. by destruct (H eq_refl) as [_ [? ?]].
    + eexists _, _. split; [reflexivity |]. split.
      * intros q []%elem_of_nil.
      * split; [done |]. intros H. by destruct (H eq_refl) as [[? ?] _].
  - eexists _, _. split; [reflexivity |]. split.
    + intros q []%elem_of_nil.
    + split; done.
Qed.

(** With a response in hand: the body or an error, and the body exactly
    for a 200 whose body reads to its end as valid JSON. *)
Lemma read_response_cases r req res :
  exists tr out,
    read_response DumpRequestOut DumpResponse ValidateBytes r req res
    = (tr, Returns out) /\
    (forall q, EvRoundTrip q ∉ tr) /\
    ((exists b, out = (Some b, None)) \/ (exists e, out = (None, Some e))) /\
    (forall b, out = (Some b, None) <->
       (remote.Debug r = true ->
          (exists d, DumpRequestOut req = inl d) /\
          (exists d, DumpResponse res = inl d)) /\
       remote.StatusCode res = 200 /\
       remote.Body res = (b, None) /\
       ValidateBytes b = None).
Proof.
  unfold read_response.
  destruct (debug_dump_cases r req res) as (tr & dbg & -> & Hsent & Hdbg).
  rewrite bind_after. unfold after, remote.ReadAll.
  destruct dbg as [derr |].
  { eexists _, _. split; [reflexivity |]. simpl. rewrite app_nil_r.
    split_and!; [done | eauto |]. intros b. split; [done |].
    intros (Hd & _). by apply Hdbg in Hd. }
  assert (remote.Debug r = true ->
          (exists d, DumpRequestOut req = inl d) /\
          (exists d, DumpResponse res = inl d)) as Hok by by apply Hdbg.
  case_bool_decide as Hst.
  { eexists _, _. split; [reflexivity |]. simpl. rewrite app_nil_r.
    split_and!; [done | eauto |]. intros b. split; [done |].
    by intros (_ & ? & _). }
  destruct (remote.Body res) as [b [rerr |]].
  { eexists _, _. split; [reflexivity |]. simpl. rewrite app_nil_r.
    split_and!; [done | eauto |]. intros b'. split; [done |].
    by intros (_ & _ & ? & _). }
  destruct (ValidateBytes b) as [verr |] eqn:Hval.
  { eexists _, _. split; [reflexivity |]. simpl. rewrite app_nil_r.
    split_and!; [done | eauto |]. intros b'. split; [done |].
    intros (_ & _ & [= <-] & ?). congruence. }
  eexists _, _. split; [reflexivity |]. simpl. rewrite app_nil_r.
  split_and!; [done | eauto |]. intros b'. split.
  - intros [= <-]. done.
  - intros (_ & _ & [= <-] & _). done.
Qed.

(** C9.  The address is the template in which each occurrence of the
    placeholder, from the left, is replaced by the request ID, and a
    template without the placeholder is used as it is.  [Resolve] always
    returns, with the body or with an error, never both and never neither.
    Whatever it sends is a GET to that address, and once the request could
    be built that is the one thing it sends, first.  It returns the body exactly when
    the request could be built, the transport answered, the debug dumps
    (if asked for) worked, the status is 200, the body was read to its
    end and [ValidateBytes] accepts it; so a connection failure, another
    status, a failed read and a body that is not valid JSON each give an
    error. *)
Theorem Resolve_needs_200_and_json (r : remote.remoteAPI)
    (c : option context.Context) (rr : remote.ResolverReq) :
  let uri := strings_.ReplaceAll (remote.URL r) "$id" (remote.ID rr) in
  let run := resolve r c rr in
  (forall p q, remote.URL r = p +:+ "$id" +:+ q ->
     strings_.Contains p "$id" = false ->
     uri = p +:+ remote.ID rr +:+ strings_.ReplaceAll q "$id" (remote.ID rr)) /\
  (strings_.Contains (remote.URL r) "$id" = false -> uri = remote.URL r) /\
  (exists out, result run = Returns out /\
     ((exists b, out = (Some b, None)) \/ (exists e, out = (None, Some e)))) /\
  (forall q, EvRoundTrip q ∈ trace run ->
     http.Method q = "GET" /\ http.URL q = uri) /\
  (forall c', c = Some c' -> url_Parse uri = None ->
     exists tr, trace run = EvRoundTrip (outgoing canon r c' uri) :: tr /\
                forall q, EvRoundTrip q ∉ tr) /\
  (forall b, result run = Returns (Some b, None) <->
     exists c' res,
       c = Some c' /\ url_Parse uri = None /\
       client_Do (outgoing canon r c' uri) = inl res /\
       (remote.Debug r = true ->
          (exists d, DumpRequestOut (outgoing canon r c' uri) = inl d) /\
          (exists d, DumpResponse res = inl d)) /\
       remote.StatusCode res = 200 /\
       remote.Body res = (b, None) /\
       ValidateBytes b = None) /\
  (forall c' e, c = Some c' -> client_Do (outgoing canon r c' uri) = inr e ->
     exists e', result run = Returns (None, Some e')) /\
  (forall c' res, c = Some c' -> client_Do (outgoing canon r c' uri) = inl res ->
     remote.StatusCode res <> 200 \/
     snd (remote.Body res) <> None \/
     ValidateBytes (fst (remote.Body res)) <> None ->
     exists e', result run = Returns (None, Some e')).
Proof.
  cbv zeta.
  split; [intros p q -> Hp; by apply ReplaceAll_placeholder |].
  split; [apply ReplaceAll_without_placeholder |].
  rewrite Resolve_unfold. cbv zeta.
  set (uri := strings_.ReplaceAll (remote.URL r) "$id" (remote.ID rr)).
  destruct c as [c' |].
  2: { simpl. split_and!; eauto; try done.
       - by intros q ?%elem_of_nil.
       - intros b. split; [done |]. by intros (? & ? & ? & _). }
  destruct (url_Parse uri) as [perr |] eqn:Hparse.
  { simpl. split_and!; eauto; try done.
    - by intros q ?%elem_of_nil.
    - intros b. split; [done |]. by intros (? & ? & _ & ? & _). }
  pose proof (outgoing_line r c' uri) as (Hm & Hu & _).
  set (req := outgoing canon r c' uri) in *.
  destruct (client_Do req) as [res | derr] eqn:Hdo.
  - destruct (read_response_cases r req res)
      as (tr & out & -> & Hsent & Hshape & Hbody).
    unfold after. simpl. split_and!.
    + eauto.
    + intros q [[= ->] | Hq]%elem_of_cons; [done |]. by apply Hsent in Hq.
    + intros c'' [= <-] _. eauto.
    + intros b. split.
      * intros [= ->]. exists c', res.
        destruct (Hbody b) as [Hb _]. specialize (Hb eq_refl). tauto.
      * intros (c'' & res' & [= <-] & _ & Hres & Hconds). fold req in Hres.
        rewrite Hdo in Hres. injection Hres as <-. f_equal. by apply Hbody.
    + intros c'' e [= <-]. fold req. rewrite Hdo. done.
    + intros c'' res' [= <-]. fold req. rewrite Hdo. intros [= <-] Hbad.
      destruct Hshape as [[b ->] | [e ->]]; [| eauto].
      destruct (Hbody b) as [(_ & Hst & Hb & Hv) _]; [done |].
      rewrite Hb in Hbad. simpl in Hbad. by destruct Hbad as [? | [? | ?]].
  - unfold after. simpl. split_and!.
    + eauto.
    + intros q [[= ->] | Hq]%elem_of_cons; [done |]. by apply elem_of_nil in Hq.
    + intros c'' [= <-] _. eexists. split; [done |]. by intros q ?%elem_of_nil.
    + intros b. split; [done |].
      intros (c'' & res' & [= <-] & _ & Hres & _). fold req in Hres. congruence.
    + eauto.
    + intros c'' res' [= <-]. fold req. rewrite Hdo. done.
Qed.

End ResolverFacts.

(** ** Worked cases *)

(** C1 (the code departs from it).  The header configuration with a
    value, blocking on, no logger, and a request that carries the right
    header: the strategy succeeds with a nil context and a nil error, the
    wrapper calls [IsAuth] on the nil context, and the handler panics; it
    neither forwards nor answers 401. *)
Theorem header_success_under_fail_block_panics :
  let ac := header_auth "X-Api-Key" "secret" false in
  let r := request_with [("X-Api-Key", ["secret"])] in
  exists h mw,
    NewAuthHandlerFunc same_key unavailable unavailable ac = (Some h, None) /\
    h r = ret (None, None) /\
    NewAuth same_key asks_upgrade unavailable unavailable ac None
      (mkOptions true) [] = (Some mw, None) /\
    mw downstream r = ([], Panics nil_deref) /\
    mw downstream r <> downstream r /\
    mw downstream r <> rejects.
Proof.
  cbv zeta. eexists _, _.
  split; [reflexivity |]. split; [by vm_compute |].
  split; [reflexivity |].
  assert (auth_handler asks_upgrade (header_auth "X-Api-Key" "secret" false) None
            (mkOptions true)
            (Some (header_check same_key
                     (Header (header_auth "X-Api-Key" "secret" false))))
            false downstream (request_with [("X-Api-Key", ["secret"])])
          = ([], Panics nil_deref)) as -> by by vm_compute.
  split; [done |]. split; discriminate.
Qed.

(** C2 (the code departs from it).  Blocking on, a logger, and a strategy
    that returns no context: with a transport error the wrapper logs it and
    then panics in [IsAuth]; with the header strategy on a request that has
    the header it panics at once.  In both cases the returned context lacks
    UserID and blocking is on, yet no 401 is written. *)
Theorem absent_context_is_not_rejected :
  (exists mw,
     NewAuth same_key asks_upgrade unavailable unavailable
       (typed_auth false "rails") (Some ZapLogger) (mkOptions true)
       [Some store_down] = (Some mw, None) /\
     mw downstream (request_with [])
     = ([EvLogError "Auth" "rails" (ErrOther "cookie store: connection refused")],
        Panics nil_deref)) /\
  (exists mw,
     NewAuth same_key asks_upgrade unavailable unavailable
       (header_auth "X-Api-Key" "" true) (Some ZapLogger) (mkOptions true) []
     = (Some mw, None) /\
     mw downstream (request_with [("X-Api-Key", ["k1"])]) = ([], Panics nil_deref)).
Proof.
  split; eexists; (split; [reflexivity | by vm_compute]).
Qed.

(** C8 as it is worded fails here: on the nil context, the one that the
    header strategy returns, [UserID] calls [Value] on a nil interface and
    [UserIDInt] panics instead of returning -1; so it does not return on
    every context. *)
Lemma UserIDInt_panics_on_nil_context :
  UserIDInt None = ([], Panics nil_deref) /\
  UserIDInt None <> ret (-1) /\
  ~ (forall c : option context.Context, exists n, UserIDInt c = ret n).
Proof.
  split; [reflexivity |]. split; [discriminate |].
  intros Hall. destruct (Hall None) as [n Hn]. discriminate Hn.
Qed.

(** C3 as it is worded fails here: a header configuration with both
    [Exists] and a [Value] breaks the rule of exactly one, and the selector
    returns a strategy and no error. *)
Lemma selector_accepts_exists_with_value :
  let ac := header_auth "X-Api-Key" "secret" true in
  let res := NewAuthHandlerFunc same_key unavailable unavailable ac in
  Development ac = false /\
  selector_fails header_rule_as_specified unavailable unavailable ac /\
  snd res = None /\
  fst res = Some (header_check same_key (Header ac)) /\
  ~ (snd res <> None <->
     selector_fails header_rule_as_specified unavailable unavailable ac).
Proof.
  cbv zeta.
  assert (selector_fails header_rule_as_specified unavailable unavailable
            (header_auth "X-Api-Key" "secret" true)) as Hspec.
  { left. split; reflexivity. }
  split; [reflexivity |]. split; [exact Hspec |].
  split; [reflexivity |]. split; [reflexivity |].
  intros [_ Hback]. by apply Hback.
Qed.

(** The selector on a header configuration without a header name. *)
Lemma selector_configuration_errors_witness :
  let ac := header_auth "" "secret" false in
  Development ac = false /\
  fst (NewAuthHandlerFunc same_key unavailable unavailable ac) = None.
Proof.
  cbv zeta. split; [reflexivity |].
  destruct (selector_configuration_errors same_key unavailable unavailable
              (header_auth "" "secret" false) eq_refl) as (_ & Hnone & _).
  apply Hnone. discriminate.
Defined.

(** The header strategy on a request that carries the configured value. *)
Lemma header_strategy_decides_witness :
  let ac := header_auth "X-Api-Key" "secret" false in
  let h := header_check same_key (Header ac) in
  let r := request_with [("X-Api-Key", ["secret"])] in
  HeaderHandler same_key ac = (Some h, None) /\
  exists err, h r = ret (None, err).
Proof.
  cbv zeta. split; [reflexivity |].
  destruct (header_strategy_decides same_key
              (header_auth "X-Api-Key" "secret" false)
              (header_check same_key (Header (header_auth "X-Api-Key" "secret" false)))
              (request_with [("X-Api-Key", ["secret"])]) eq_refl)
    as (_ & _ & _ & Hnil).
  exact Hnil.
Defined.

(** A wrong header value: logged, answered with 401, not forwarded. *)
Lemma sentinel_rejects_with_401_witness :
  let ac := header_auth "X-Api-Key" "secret" false in
  let r := request_with [("X-Api-Key", ["other"])] in
  exists mw,
    NewAuth same_key asks_upgrade unavailable unavailable ac (Some ZapLogger)
      (mkOptions false) [] = (Some mw, None) /\
    mw downstream r
    = ([EvLogError "Auth" "header" Err401; EvHttpError "401 unauthorized" 401],
       Returns tt).
Proof.
  cbv zeta. eexists. split; [reflexivity |].
  apply (sentinel_rejects_with_401 same_key asks_upgrade unavailable unavailable
           (header_auth "X-Api-Key" "secret" false) (Some ZapLogger)
           (mkOptions false) [] _ downstream
           (request_with [("X-Api-Key", ["other"])]) [] None).
  - reflexivity.
  - reflexivity.
  - by vm_compute.
Defined.

(** An upgrade request goes through a wrapper whose strategy always fails. *)
Lemma upgrade_bypasses_supplied_strategy_witness :
  let r := request_with [("Connection", ["Upgrade"]); ("Upgrade", ["websocket"])] in
  asks_upgrade r = true /\
  exists mw,
    NewAuth same_key asks_upgrade unavailable unavailable
      (typed_auth false "none") None (mkOptions true) [Some store_down]
    = (Some mw, None) /\
    mw downstream r = downstream r.
Proof.
  cbv zeta. split; [by vm_compute |].
  apply (upgrade_bypasses_supplied_strategy same_key asks_upgrade
           unavailable unavailable (typed_auth false "none") None (mkOptions true)
           downstream
           (request_with [("Connection", ["Upgrade"]); ("Upgrade", ["websocket"])])).
  by vm_compute.
Defined.

(** The development strategy on a request with a user id: the downstream
    handler sees an authenticated context whose user id reads as 42. *)
Example development_user_42 :
  let r := request_with [("X-User-ID", ["42"])] in
  let c := [(UserIDKey, AnyString "42")] in
  exists mw,
    NewAuth same_key asks_upgrade unavailable unavailable (typed_auth true "")
      None (mkOptions true) [] = (Some mw, None) /\
    mw downstream r = downstream (http.WithContext r c) /\
    IsAuth (Some c) = ret true /\
    UserIDInt (Some c) = ret 42.
Proof.
  cbv zeta. eexists. split; [reflexivity |]. by vm_compute.
Qed.

(** Without identity headers the policy decides: 401 under blocking, and
    otherwise the request goes on, not authenticated. *)
Example development_without_identity :
  let r := request_with [] in
  exists block pass,
    NewAuth same_key asks_upgrade unavailable unavailable (typed_auth true "")
      None (mkOptions true) [] = (Some block, None) /\
    NewAuth same_key asks_upgrade unavailable unavailable (typed_auth true "")
      None (mkOptions false) [] = (Some pass, None) /\
    block downstream r = rejects /\
    pass downstream r = downstream r /\
    IsAuth (Some (http.Context r)) = ret false.
Proof.
  cbv zeta. eexists _, _. split; [reflexivity |]. split; [reflexivity |].
  by vm_compute.
Qed.

(** The header strategy on a configured value, without blocking. *)
Example header_value_secret :
  exists mw,
    NewAuth same_key asks_upgrade unavailable unavailable
      (header_auth "X-Api-Key" "secret" false) None (mkOptions false) []
    = (Some mw, None) /\
    mw downstream (request_with [("X-Api-Key", ["secret"])])
    = downstream (request_with [("X-Api-Key", ["secret"])]) /\
    mw downstream (request_with [("X-Api-Key", ["other"])]) = rejects /\
    mw downstream (request_with []) = rejects.
Proof.
  eexists. split; [reflexivity |]. by vm_compute.
Qed.

Example UserIDInt_sentinels :
  UserIDInt (Some [(UserIDKey, AnyString "abc")]) = ret (-1) /\
  UserIDInt (Some [(UserIDKey, AnyString "")]) = ret (-1) /\
  UserIDInt (Some []) = ret (-1) /\
  UserIDInt (Some [(UserIDKey, AnyInt 7)]) = ret (-1) /\
  UserIDInt (Some [(UserIDKey, AnyString "9223372036854775808")]) = ret (-1) /\
  UserIDInt (Some [(UserIDKey, AnyString "-17")]) = ret (-17).
Proof. by vm_compute. Qed.

Example resolve_known_and_unknown_user :
  let resolve :=
    Resolve same_key (fun _ => None) one_user no_dump no_dump starts_as_object
      users_api (Some context.Background) in
  result (resolve (remote.mkReq "42")) = Returns (Some "{}", None) /\
  result (resolve (remote.mkReq "7"))
  = Returns (None, Some (ErrOther "server responded with a 404")).
Proof. by vm_compute. Qed.

(** ** newRemoteAPI *)

Lemma fold_append_header (l : list (string * string)) (ra : remote.remoteAPI) :
  fold_left append_header l ra =
    remote.mkAPI (remote.URL ra) (remote.Debug ra) (remote.PassHeaders ra)
      (remote.SetHeaders ra ++ (to_header <$> l)).
Proof.
  revert ra. induction l as [| kv l IH]; intros ra; simpl.
  - rewrite app_nil_r. by destruct ra.
  - rewrite IH. simpl. by rewrite <- app_assoc.
Qed.

Lemma newRemoteAPI_closed_form (range_map : gmap string string -> list (string * string))
    (v : gmap string confValue) :
  newRemoteAPI range_map v =
    (Some (remote.mkAPI (conf_url v) (conf_debug v) (conf_pass_headers v)
             match v !! "set_headers" with
             | Some (ConfStringMap m) => to_header <$> range_map m
             | _ => []
             end), None).
Proof.
  unfold newRemoteAPI, conf_url, conf_debug, conf_pass_headers, zero_remoteAPI.
  cbv zeta. f_equal. f_equal.
  destruct (v !! "set_headers") as [[| | | m |] |];
    rewrite ?fold_append_header;
    destruct (v !! "url") as [[] |]; destruct (v !! "debug") as [[] |];
    destruct (v !! "pass_headers") as [[] |]; reflexivity.
Qed.

(** X1.  [newRemoteAPI] never fails.  Each of the settings url, debug and
    pass_headers is taken when the key is there with a value of the
    expected dynamic type, and is left at its zero value otherwise (no key,
    or a value of another type); set_headers gives one header per entry of
    the map, in the order of the enumeration, and none when it is not a
    string map; every other key of the configuration is ignored. *)
Theorem newRemoteAPI_reads_typed_settings
    (range_map : gmap string string -> list (string * string))
    (v : gmap string confValue) :
  exists ra,
    newRemoteAPI range_map v = (Some ra, None) /\
    (forall s, v !! "url" = Some (ConfString s) -> remote.URL ra = s) /\
    ((forall s, v !! "url" <> Some (ConfString s)) -> remote.URL ra = "") /\
    (forall b, v !! "debug" = Some (ConfBool b) -> remote.Debug ra = b) /\
    ((forall b, v !! "debug" <> Some (ConfBool b)) -> remote.Debug ra = false) /\
    (forall l, v !! "pass_headers" = Some (ConfStrings l) -> remote.PassHeaders ra = l) /\
    ((forall l, v !! "pass_headers" <> Some (ConfStrings l)) -> remote.PassHeaders ra = []) /\
    (forall m, v !! "set_headers" = Some (ConfStringMap m) ->
       remote.SetHeaders ra = to_header <$> range_map m) /\
    ((forall m, v !! "set_headers" <> Some (ConfStringMap m)) -> remote.SetHeaders ra = []) /\
    (forall v' : gmap string confValue,
       (forall k, k ∈ ["url"; "debug"; "pass_headers"; "set_headers"] -> v' !! k = v !! k) ->
       newRemoteAPI range_map v' = newRemoteAPI range_map v).
Proof.
  eexists. split; [apply newRemoteAPI_closed_form |]. simpl.
  unfold conf_url, conf_debug, conf_pass_headers. split_and!.
  - by intros s ->.
  - intros Hno. destruct (v !! "url") as [[s | | | |] |]; try done. by destruct (Hno s).
  - by intros b ->.
  - intros Hno. destruct (v !! "debug") as [[| b | | |] |]; try done. by destruct (Hno b).
  - by intros l ->.
  - intros Hno. destruct (v !! "pass_headers") as [[| | l | |] |]; try done.
    by destruct (Hno l).
  - by intros m ->.
  - intros Hno. destruct (v !! "set_headers") as [[| | | m |] |]; try done.
    by destruct (Hno m).
  - intros v' Hsame. rewrite !newRemoteAPI_closed_form.
    unfold conf_url, conf_debug, conf_pass_headers.
    rewrite !Hsame by set_solver. reflexivity.
Qed.

Section NewRemoteAPIFacts.

Variable range_map : gmap string string -> list (string * string).

(** [range] visits every entry of the map once. *)
Hypothesis range_enumerates : forall m, range_map m ≡ₚ map_to_list m.

(** X2.  When set_headers is a string map, the headers of the resolver are
    the entries of that map, each exactly once, in some order: as many as
    the map has entries, with pairwise distinct names, and a header with
    name [k] and value [x] is among them exactly when the map sends [k] to
    [x]. *)
Theorem newRemoteAPI_set_headers (v : gmap string confValue)
    (m : gmap string string) (ra : remote.remoteAPI) :
  v !! "set_headers" = Some (ConfStringMap m) ->
  newRemoteAPI range_map v = (Some ra, None) ->
  remote.SetHeaders ra ≡ₚ to_header <$> map_to_list m /\
  length (remote.SetHeaders ra) = size m /\
  NoDup (remote.Name <$> remote.SetHeaders ra) /\
  (forall k x, remote.mkHdr k x ∈ remote.SetHeaders ra <-> m !! k = Some x).
Proof.
  intros Hm. rewrite newRemoteAPI_closed_form, Hm. intros [= <-]. simpl.
  assert (to_header <$> range_map m ≡ₚ to_header <$> map_to_list m) as Hperm
    by by rewrite range_enumerates.
  split_and!.
  - done.
  - by rewrite Hperm, length_fmap, length_map_to_list.
  - rewrite Hperm, <- list_fmap_compose.
    apply (NoDup_fst_map_to_list m).
  - intros k x. rewrite Hperm, list_elem_of_fmap. split.
    + intros ([k' x'] & [= -> ->] & Hin). by apply elem_of_map_to_list in Hin.
    + intros Hk. exists (k, x). split; [done |]. by apply elem_of_map_to_list.
Qed.

End NewRemoteAPIFacts.

(** ** The request of the resolver *)

Section OutgoingFacts.

Variable canon : string -> string.

Lemma Header_Get_Set (q : http.Request) (name value key : string) :
  Header_Get canon (http.Header (Header_Set canon q name value)) key =
    if decide (canon name = canon key) then value
    else Header_Get canon (http.Header q) key.
Proof.
  unfold Header_Get, Header_Set. simpl. case_decide as Hk.
  - by rewrite Hk, lookup_insert_eq.
  - by rewrite lookup_insert_ne.
Qed.

Lemma outgoing_headers_of r c uri :
  outgoing canon r c uri =
    {| http.Method := "GET"; http.URL := uri;
       http.Header := headers_of canon (remote.SetHeaders r); http.ctx := c |}.
Proof.
  unfold outgoing, headers_of.
  generalize (@empty (gmap string (list string)) _) as m.
  induction (remote.SetHeaders r) as [| h hs IH]; intros m; [done |].
  simpl. unfold Header_Set at 2. simpl. apply IH.
Qed.

Lemma headers_of_snoc hs h :
  headers_of canon (hs ++ [h]) =
    <[canon (remote.Name h) := [remote.Value h]]> (headers_of canon hs).
Proof. unfold headers_of. by rewrite fold_left_app. Qed.

Lemma headers_of_list_to_map hs :
  headers_of canon hs = list_to_map (reverse (header_entry canon <$> hs)).
Proof.
  induction hs as [| h hs IH] using rev_ind; [done |].
  rewrite headers_of_snoc, fmap_app, reverse_app, IH. reflexivity.
Qed.

(** With names that stay distinct once canonical, the order in which the
    headers are set does not show in the header map. *)
Lemma headers_of_permutation hs hs' :
  NoDup (canonical_name canon <$> hs) -> hs ≡ₚ hs' ->
  headers_of canon hs = headers_of canon hs'.
Proof.
  intros Hnodup Hperm. rewrite !headers_of_list_to_map.
  apply list_to_map_proper.
  - rewrite <- fmap_reverse, <- list_fmap_compose, reverse_Permutation.
    exact Hnodup.
  - by rewrite !reverse_Permutation, Hperm.
Qed.

(** X3.  The request that the resolver sends carries the configured
    headers and nothing else: a configured header that no later one
    overrides (none after it has the same canonical name) is read back with
    its value, and a key whose canonical form matches no configured name
    reads as empty. *)
Theorem outgoing_carries_set_headers (r : remote.remoteAPI)
    (c : context.Context) (uri : string) :
  (forall before h after_,
     remote.SetHeaders r = before ++ h :: after_ ->
     (forall h', h' ∈ after_ -> canonical_name canon h' <> canonical_name canon h) ->
     Header_Get canon (http.Header (outgoing canon r c uri)) (remote.Name h)
     = remote.Value h) /\
  (forall key,
     (forall h, h ∈ remote.SetHeaders r -> canonical_name canon h <> canon key) ->
     Header_Get canon (http.Header (outgoing canon r c uri)) key = "").
Proof.
  rewrite outgoing_headers_of. simpl. split.
  - intros before h after_ -> Hlast.
    induction after_ as [| h' after_ IH] using rev_ind.
    + change (before ++ [h]) with (before ++ [h]).
      rewrite headers_of_snoc. unfold Header_Get. by rewrite lookup_insert_eq.
    + rewrite app_comm_cons, app_assoc, headers_of_snoc.
      unfold Header_Get. rewrite lookup_insert_ne.
      * apply IH. intros h'' Hin. apply Hlast. apply elem_of_app. by left.
      * apply Hlast. apply elem_of_app. right. by apply list_elem_of_singleton.
  - intros key Hnone.
    induction (remote.SetHeaders r) as [| h hs IH] using rev_ind; [done |].
    rewrite headers_of_snoc. unfold Header_Get. rewrite lookup_insert_ne.
    + apply IH. intros h' Hin. apply Hnone. apply elem_of_app. by left.
    + apply Hnone. apply elem_of_app. right. by apply list_elem_of_singleton.
Qed.

End OutgoingFacts.

(** ** More on the resolver *)

Section ResolverBehaviour.

Variable canon : string -> string.
Variable url_Parse : string -> option error.
Variable client_Do : http.Request -> remote.Response + error.
Variable DumpRequestOut : http.Request -> string + error.
Variable DumpResponse : remote.Response -> string + error.
Variable ValidateBytes : string -> option error.

Local Abbreviation resolve :=
  (Resolve canon url_Parse client_Do DumpRequestOut DumpResponse ValidateBytes).
Local Abbreviation respond :=
  (read_response DumpRequestOut DumpResponse ValidateBytes).

Lemma read_response_same_debug r r' req res :
  remote.Debug r = remote.Debug r' -> respond r req res = respond r' req res.
Proof. intros Hd. unfold read_response, debug_dump. by rewrite Hd. Qed.

Lemma Resolve_congruence (r r' : remote.remoteAPI)
    (c : option context.Context) (rr : remote.ResolverReq) :
  remote.URL r = remote.URL r' ->
  remote.Debug r = remote.Debug r' ->
  remote.SetHeaders r ≡ₚ remote.SetHeaders r' ->
  NoDup (canonical_name canon <$> remote.SetHeaders r) ->
  resolve r c rr = resolve r' c rr.
Proof.
  intros Hurl Hdbg Hperm Hnodup.
  rewrite !Resolve_unfold. cbv zeta. rewrite <- Hurl.
  destruct c as [c' |]; [| done].
  destruct (url_Parse _); [done |].
  rewrite !outgoing_headers_of.
  rewrite <- (headers_of_permutation canon _ _ Hnodup Hperm).
  f_equal. destruct (client_Do _); [| done].
  by apply read_response_same_debug.
Qed.

(** X4.  What [Resolve] does depends on the resolver only through its
    address template, its debug flag and its headers, and on the headers
    only as a set when their canonical names are distinct: two resolvers
    that agree on these behave the same on every request, whatever their
    PassHeaders are and in whatever order their headers are listed. *)
Theorem Resolve_depends_on_url_debug_headers (r r' : remote.remoteAPI)
    (c : option context.Context) (rr : remote.ResolverReq) :
  remote.URL r = remote.URL r' ->
  remote.Debug r = remote.Debug r' ->
  remote.SetHeaders r ≡ₚ remote.SetHeaders r' ->
  NoDup (canonical_name canon <$> remote.SetHeaders r) ->
  resolve r c rr = resolve r' c rr /\
  forall pass, resolve (remote.mkAPI (remote.URL r) (remote.Debug r) pass
                          (remote.SetHeaders r)) c rr = resolve r c rr.
Proof.
  intros Hurl Hdbg Hperm Hnodup. split; [by apply Resolve_congruence |].
  intros pass. by apply Resolve_congruence.
Qed.

(** X5.  The order in which Go ranges over the set_headers map does not
    show: when the names of that map stay distinct once canonical, the
    resolvers that [newRemoteAPI] builds from one configuration under two
    enumeration orders behave the same on every request. *)
Theorem newRemoteAPI_order_does_not_show
    (range1 range2 : gmap string string -> list (string * string))
    (v : gmap string confValue) (ra1 ra2 : remote.remoteAPI)
    (c : option context.Context) (rr : remote.ResolverReq) :
  (forall m, range1 m ≡ₚ map_to_list m) ->
  (forall m, range2 m ≡ₚ map_to_list m) ->
  (forall k1 k2, is_Some (conf_set_headers v !! k1) ->
                 is_Some (conf_set_headers v !! k2) ->
                 canon k1 = canon k2 -> k1 = k2) ->
  newRemoteAPI range1 v = (Some ra1, None) ->
  newRemoteAPI range2 v = (Some ra2, None) ->
  resolve ra1 c rr = resolve ra2 c rr.
Proof.
  intros Hr1 Hr2 Hinj. rewrite !newRemoteAPI_closed_form.
  intros [= <-] [= <-]. apply Resolve_congruence; try done; simpl.
  - destruct (v !! "set_headers") as [[| | | m |] |]; try done.
    by rewrite Hr1, Hr2.
  - unfold conf_set_headers in Hinj.
    destruct (v !! "set_headers") as [[| | | m |] |]; try apply NoDup_nil_2.
    rewrite <- list_fmap_compose.
    apply NoDup_fmap_2_strong.
    + intros [k1 x1] [k2 x2] Hin1 Hin2 Hc. unfold canonical_name in Hc. simpl in Hc.
      rewrite Hr1 in Hin1, Hin2.
      apply elem_of_map_to_list in Hin1, Hin2.
      assert (k1 = k2) as -> by (apply Hinj; eauto).
      congruence.
    + rewrite Hr1. apply NoDup_map_to_list.
Qed.

(** X6.  [Resolve] sends a request exactly when it could build one: with
    a nil context, or an address that does not parse, it returns that error
    and nothing at all is sent or printed. *)
Theorem Resolve_sends_iff_built (r : remote.remoteAPI)
    (c : option context.Context) (rr : remote.ResolverReq) :
  let uri := strings_.ReplaceAll (remote.URL r) "$id" (remote.ID rr) in
  let run := resolve r c rr in
  ((exists q, EvRoundTrip q ∈ trace run) <->
     (exists c', c = Some c' /\ url_Parse uri = None)) /\
  (c = None -> run = ([], Returns (None, Some (ErrOther "net/http: nil Context")))) /\
  (forall c' e, c = Some c' -> url_Parse uri = Some e ->
     run = ([], Returns (None, Some e))).
Proof.
  cbv zeta. rewrite Resolve_unfold. cbv zeta.
  destruct c as [c' |].
  - destruct (url_Parse _) as [e |] eqn:Hparse.
    + split_and!; try done.
      * split; [by intros [q ?%elem_of_nil] | by intros (? & _ & ?)].
      * by intros c'' e' _ [= <-].
    + split_and!; try done. split; [eauto |]. intros _.
      eexists. unfold after. simpl. apply elem_of_cons. by left.
  - split_and!; try done.
    split; [by intros [q ?%elem_of_nil] | by intros (? & ? & _)].
Qed.

(** X7.  What the debug flag changes.  With the flag on and both dumps
    working, [Resolve] returns what it returns with the flag off and its
    trace is the same trace followed by one printed line; when the
    transport fails the flag changes nothing; when a dump fails, [Resolve]
    returns the error of that dump whatever the response is; and with the
    flag off nothing is ever printed. *)
Theorem Resolve_debug_is_transparent (r : remote.remoteAPI)
    (c : context.Context) (rr : remote.ResolverReq) :
  let uri := strings_.ReplaceAll (remote.URL r) "$id" (remote.ID rr) in
  let req := outgoing canon r c uri in
  let on := resolve (with_debug true r) (Some c) rr in
  let off := resolve (with_debug false r) (Some c) rr in
  url_Parse uri = None ->
  (forall e, client_Do req = inr e -> on = off) /\
  (forall res reqDump resDump,
     client_Do req = inl res ->
     DumpRequestOut req = inl reqDump ->
     DumpResponse res = inl resDump ->
     result on = result off /\
     trace on = trace off ++ [EvPrintf (debug_line reqDump resDump)]) /\
  (forall res e, client_Do req = inl res -> DumpRequestOut req = inr e ->
     on = ([EvRoundTrip req], Returns (None, Some e))) /\
  (forall res reqDump e, client_Do req = inl res ->
     DumpRequestOut req = inl reqDump -> DumpResponse res = inr e ->
     on = ([EvRoundTrip req], Returns (None, Some e))) /\
  (forall text, EvPrintf text ∉ trace off).
Proof.
  cbv zeta. intros Hparse. rewrite !Resolve_unfold. cbv zeta.
  change (remote.URL (with_debug true r)) with (remote.URL r).
  change (remote.URL (with_debug false r)) with (remote.URL r).
  rewrite Hparse.
  change (outgoing canon (with_debug true r) c) with (outgoing canon r c).
  change (outgoing canon (with_debug false r) c) with (outgoing canon r c).
  set (req := outgoing canon r c _).
  unfold read_response, debug_dump.
  change (remote.Debug (with_debug true r)) with true.
  change (remote.Debug (with_debug false r)) with false. cbv iota.
  destruct (client_Do req) as [res | e]; split_and!; try done.
  - intros res' d1 d2 [= <-] -> ->. rewrite bind_emit, !bind_ret_l.
    unfold after, trace, result. simpl.
    case_bool_decide; [done |].
    destruct (remote.ReadAll (remote.Body res)) as [b [e |]]; [done |].
    by destruct (ValidateBytes b).
  - by intros res' e [= <-] ->.
  - by intros res' d1 e [= <-] -> ->.
  - intros text. rewrite bind_ret_l. unfold after, trace. simpl.
    intros [[=] | Hin]%elem_of_cons. revert Hin.
    case_bool_decide; [by intros ?%elem_of_nil |].
    destruct (remote.ReadAll (remote.Body res)) as [b [e |]];
      [by intros ?%elem_of_nil |].
    destruct (ValidateBytes b); by intros ?%elem_of_nil.
  - intros text. unfold after, trace. simpl.
    intros [[=] | ?%elem_of_nil]%elem_of_cons. done.
Qed.

(** X8.  Which error [Resolve] returns, debug off.  A transport failure is
    reported with the address and the cause.  A status other than 200 is
    reported with the status code, whatever the body is: the body is not
    read.  With a 200, an error that stops the read of the body is
    returned as it is and the bytes read so far are dropped; otherwise the
    error of the JSON check is returned as it is. *)
Theorem Resolve_reports_first_failure (r : remote.remoteAPI)
    (c : context.Context) (rr : remote.ResolverReq) :
  let uri := strings_.ReplaceAll (remote.URL r) "$id" (remote.ID rr) in
  let req := outgoing canon r c uri in
  let run := resolve r (Some c) rr in
  url_Parse uri = None ->
  remote.Debug r = false ->
  (forall e, client_Do req = inr e ->
     run = ([EvRoundTrip req],
            Returns (None, Some (ErrOther ("failed to connect to '" +:+ uri +:+ "': "
                                             +:+ error_msg e))))) /\
  (forall res, client_Do req = inl res -> remote.StatusCode res <> 200 ->
     run = ([EvRoundTrip req],
            Returns (None, Some (ErrOther ("server responded with a "
                                             +:+ pretty (remote.StatusCode res)))))) /\
  (forall res b e, client_Do req = inl res -> remote.StatusCode res = 200 ->
     remote.Body res = (b, Some e) ->
     run = ([EvRoundTrip req], Returns (None, Some e))) /\
  (forall res b e, client_Do req = inl res -> remote.StatusCode res = 200 ->
     remote.Body res = (b, None) -> ValidateBytes b = Some e ->
     run = ([EvRoundTrip req], Returns (None, Some e))).
Proof.
  cbv zeta. intros Hparse Hdbg. rewrite Resolve_unfold. cbv zeta.
  rewrite Hparse. set (req := outgoing canon r c _).
  unfold read_response, debug_dump, remote.ReadAll. rewrite Hdbg.
  split_and!.
  - by intros e ->.
  - intros res -> Hst. rewrite bind_ret_l. by rewrite bool_decide_true.
  - intros res b e -> Hst Hbody. rewrite bind_ret_l.
    rewrite bool_decide_false by (by intros ?). by rewrite Hbody.
  - intros res b e -> Hst Hbody Hval. rewrite bind_ret_l.
    rewrite bool_decide_false by (by intros ?). by rewrite Hbody, Hval.
Qed.

End ResolverBehaviour.

(** ** More on the accessors *)

Lemma digits_nonneg (s : string) (acc n : Z) :
  0 <= acc -> strconv.digits acc s = Some n -> 0 <= n.
Proof.
  revert acc. induction s as [| a s IH]; intros acc Hacc; simpl.
  - by intros [= <-].
  - destruct (strconv.digit a) as [d |] eqn:Hd; [| done].
    apply digit_range in Hd. apply IH. lia.
Qed.

Lemma Atoi_ok_in_range (s : string) (n : Z) :
  strconv.Atoi s = (n, None) ->
  numeric s = true /\ strconv.minInt <= n <= strconv.maxInt.
Proof.
  intros Hok. split.
  - destruct (numeric s) eqn:Hnum; [done |].
    rewrite (Atoi_not_numeric _ Hnum) in Hok. discriminate.
  - revert Hok. unfold strconv.Atoi, strconv.minInt, strconv.maxInt.
    destruct (strconv.sign s) as [neg body].
    destruct (strconv.magnitude body) as [un |] eqn:Hm; [| done].
    assert (0 <= un).
    { destruct body; [done |]. by apply (digits_nonneg _ 0 un) in Hm. }
    destruct neg.
    + destruct (Z.leb_spec un (2 ^ 63)); [| done]. intros [= <-]. lia.
    + destruct (Z.ltb_spec un (2 ^ 63)); [| done]. intros [= <-]. lia.
Qed.

(** X9.  The accessors agree on a context that is there.  When
    [UserIDInt] returns anything but -1, the context is authenticated and
    UserID is a numeric string that [Atoi] reads as that number, within
    the range of [int]; and on a context that is not authenticated
    [UserIDInt] returns -1. *)
Theorem UserIDInt_implies_IsAuth (c : context.Context) (n : Z) :
  UserIDInt (Some c) = ret n ->
  (n <> -1 ->
     IsAuth (Some c) = ret true /\
     exists s, UserID (Some c) = ret (AnyString s) /\
               numeric s = true /\
               strconv.Atoi s = (n, None) /\
               strconv.minInt <= n <= strconv.maxInt) /\
  (IsAuth (Some c) = ret false -> n = -1).
Proof.
  rewrite UserIDInt_unfold. unfold IsAuth, UserID, ctx_Value. rewrite bind_ret_l.
  destruct (context.Value c UserIDKey) as [| s | |] eqn:Huid.
  - intros [= <-]. split; done.
  - destruct (strconv.Atoi s) as [m [e |]] eqn:Hatoi.
    + intros [= <-]. split; done.
    + intros [= <-]. split; [| done]. intros _. split; [done |].
      exists s. apply Atoi_ok_in_range in Hatoi as Hr. tauto.
  - intros [= <-]. split; done.
  - intros [= <-]. split; done.
Qed.

Lemma UserIDInt_implies_IsAuth_witness :
  let c := [(UserIDKey, AnyString "42")] in
  UserIDInt (Some c) = ret 42 /\ IsAuth (Some c) = ret true.
Proof.
  cbv zeta. split; [reflexivity |].
  destruct (UserIDInt_implies_IsAuth [(UserIDKey, AnyString "42")] 42 eq_refl)
    as [Hauth _].
  apply Hauth. discriminate.
Defined.

(** ** More on the strategies and the wrapper *)

Lemma pretty_Z_nonempty (n : Z) :
  strconv.minInt <= n <= strconv.maxInt -> pretty n <> "".
Proof.
  intros Hn Hempty. apply Atoi_pretty in Hn. rewrite Hempty in Hn. discriminate.
Qed.

Section WrapperBehaviour.

Variable canon : string -> string.
Variable isUpgrade : http.Request -> bool.
Variable rails jwt : Auth -> option HandlerFunc * option error.

Local Abbreviation newAuth := (NewAuth canon isUpgrade rails jwt).
Local Abbreviation selector := (NewAuthHandlerFunc canon rails jwt).

Lemma wrapped_not_supplied ac hFn :
  supplied hFn = false ->
  wrapped canon rails jwt ac hFn = (fst (selector ac), false).
Proof. by destruct hFn as [| [h |] rest]. Qed.

Lemma NewAuth_not_supplied ac log opt hFn :
  supplied hFn = false ->
  newAuth ac log opt hFn =
    match selector ac with
    | (_, Some err) => (None, Some err)
    | (h, None) => (Some (auth_handler isUpgrade ac log opt h false), None)
    end.
Proof. by destruct hFn as [| [h |] rest]. Qed.

Lemma selector_no_auth_iff ac :
  snd (selector ac) = Some ErrNoAuthDefined <->
  Development ac = false /\ (Type_ ac = "" \/ Type_ ac = "none").
Proof.
  unfold NewAuthHandlerFunc, select_by_type.
  destruct (Development ac); [split; [done | by intros [? _]] |].
  repeat case_bool_decide; simpl;
    repeat match goal with
           | |- context [rails ac] => destruct (rails ac) as [? [? |]]
           | |- context [jwt ac] => destruct (jwt ac) as [? [? |]]
           | |- context [HeaderHandler canon ac] =>
               destruct (HeaderHandler canon ac) as [? [? |]]
           end; simpl; split; try done; try tauto;
    intros [_ [? | ?]]; congruence.
Qed.

(** X10.  [NewAuth] returns a middleware or an error, never both and never
    neither.  It fails only when no strategy was supplied, and then with
    the very error of the selector; it never fails in development mode;
    and the error is [ErrNoAuthDefined] exactly when no strategy was
    supplied, development mode is off and [Type] is empty or none. *)
Theorem NewAuth_fails_as_selector (ac : Auth) (log : option Logger)
    (opt : Options) (hFn : list (option HandlerFunc)) :
  let res := newAuth ac log opt hFn in
  (fst res = None <-> snd res <> None) /\
  (snd res <> None -> supplied hFn = false /\ snd res = snd (selector ac)) /\
  (Development ac = true -> snd res = None) /\
  (snd res = Some ErrNoAuthDefined <->
     supplied hFn = false /\ Development ac = false /\
     (Type_ ac = "" \/ Type_ ac = "none")).
Proof.
  cbv zeta. pose proof (selector_no_auth_iff ac) as Hno.
  destruct (supplied hFn) eqn:Hsup.
  - destruct hFn as [| [h |] rest]; try done. simpl. split_and!.
    + by split.
    + done.
    + done.
    + split; [done | by intros [? _]].
  - rewrite NewAuth_not_supplied by done.
    assert (Development ac = true -> snd (selector ac) = None) as Hdev.
    { intros Hd. unfold NewAuthHandlerFunc. by rewrite Hd. }
    destruct (selector ac) as [h [e |]]; simpl in *; split_and!.
    + by split.
    + done.
    + intros Hd. by apply Hdev in Hd.
    + rewrite Hno. tauto.
    + by split.
    + done.
    + done.
    + rewrite Hno. tauto.
Qed.

(** X11.  No accepted header configuration lets through a request that
    lacks the header: when the named header is missing, or its first value
    is empty, the header strategy returns the sentinel [Err401]. *)
Theorem header_strategy_rejects_missing_header (ac : Auth) (h : HandlerFunc)
    (r : http.Request) :
  HeaderHandler canon ac = (Some h, None) ->
  Header_Get canon (http.Header r) (HeaderConfig.Name (Header ac)) = "" ->
  h r = ret (None, Some Err401).
Proof.
  unfold HeaderHandler. case_bool_decide; [done |].
  destruct (HeaderConfig.Exists (Header ac)) eqn:Hex; simpl.
  - intros [= <-] Hget. unfold header_check. rewrite Hex, Hget. done.
  - case_bool_decide as Hval; [done |]. intros [= <-] Hget.
    unfold header_check. rewrite Hex, Hget. by rewrite bool_decide_true.
Qed.

Lemma header_check_passes hdr r :
  header_check canon hdr r =
    if header_passes canon hdr r then ret (None, None) else ret (None, Some Err401).
Proof.
  unfold header_check, header_passes.
  destruct (HeaderConfig.Exists hdr); by repeat case_bool_decide.
Qed.

Lemma NewAuth_header_inv ac log opt hFn mw :
  Development ac = false -> Type_ ac = "header" -> supplied hFn = false ->
  newAuth ac log opt hFn = (Some mw, None) ->
  mw = auth_handler isUpgrade ac log opt (Some (header_check canon (Header ac))) false.
Proof.
  intros Hdev Hty Hsup. rewrite NewAuth_not_supplied by done.
  unfold NewAuthHandlerFunc, select_by_type, HeaderHandler. rewrite Hdev, Hty. simpl.
  case_bool_decide; [done |]. destruct (negb _ && _); [done |].
  by intros [= <-].
Qed.

(** X12.  The header strategy behind a wrapper that does not block: a
    request that passes the header test reaches the downstream handler as
    it came, and every other request is logged if there is a logger and
    answered with 401. *)
Theorem header_auth_without_blocking (ac : Auth) (log : option Logger)
    (opt : Options) (hFn : list (option HandlerFunc)) (mw : Middleware)
    (next : Handler) (r : http.Request) :
  Development ac = false -> Type_ ac = "header" -> supplied hFn = false ->
  AuthFailBlock opt = false ->
  newAuth ac log opt hFn = (Some mw, None) ->
  mw next r =
    if header_passes canon (Header ac) r then next r
    else (logged ac log (Some Err401) ++ [EvHttpError "401 unauthorized" 401],
          Returns tt).
Proof.
  intros Hdev Hty Hsup Hblock ->%NewAuth_header_inv; try done.
  rewrite auth_handler_ordinary by done.
  destruct (header_passes canon (Header ac) r) eqn:Hpass.
  - erewrite authenticate_returns
      by (simpl; rewrite header_check_passes, Hpass; reflexivity).
    rewrite bool_decide_false by done. rewrite Hblock. apply after_nil.
  - erewrite authenticate_returns
      by (simpl; rewrite header_check_passes, Hpass; reflexivity).
    rewrite bool_decide_true by done. reflexivity.
Qed.

(** X13.  The header strategy behind a wrapper that blocks never reaches
    the downstream handler: a request that fails the header test is
    answered with 401, and a request that passes it makes the handler
    panic, since the strategy returns no context and [IsAuth] is called on
    it. *)
Theorem header_auth_with_blocking (ac : Auth) (log : option Logger)
    (opt : Options) (hFn : list (option HandlerFunc)) (mw : Middleware)
    (next : Handler) (r : http.Request) :
  Development ac = false -> Type_ ac = "header" -> supplied hFn = false ->
  AuthFailBlock opt = true ->
  newAuth ac log opt hFn = (Some mw, None) ->
  mw next r =
    if header_passes canon (Header ac) r then ([], Panics nil_deref)
    else (logged ac log (Some Err401) ++ [EvHttpError "401 unauthorized" 401],
          Returns tt).
Proof.
  intros Hdev Hty Hsup Hblock ->%NewAuth_header_inv; try done.
  rewrite auth_handler_ordinary by done.
  destruct (header_passes canon (Header ac) r) eqn:Hpass.
  - erewrite authenticate_returns
      by (simpl; rewrite header_check_passes, Hpass; reflexivity).
    rewrite bool_decide_false by done. by rewrite Hblock.
  - erewrite authenticate_returns
      by (simpl; rewrite header_check_passes, Hpass; reflexivity).
    rewrite bool_decide_true by done. reflexivity.
Qed.

Lemma NewAuth_development_inv ac log opt hFn mw :
  Development ac = true -> supplied hFn = false ->
  newAuth ac log opt hFn = (Some mw, None) ->
  mw = auth_handler isUpgrade ac log opt (Some (simple_identity canon)) false.
Proof.
  intros Hdev Hsup. rewrite NewAuth_not_supplied by done.
  unfold NewAuthHandlerFunc. rewrite Hdev. by intros [= <-].
Qed.

(** X14.  Development mode end to end.  A request whose X-User-ID header
    is the decimal notation of an [int] [n] is always forwarded, whether
    the wrapper blocks or not, with a context on which [IsAuth] holds,
    [UserID] is that string and [UserIDInt] is [n]. *)
Theorem development_user_id_round_trip (ac : Auth) (log : option Logger)
    (opt : Options) (hFn : list (option HandlerFunc)) (mw : Middleware)
    (next : Handler) (r : http.Request) (n : Z) :
  Development ac = true -> supplied hFn = false ->
  newAuth ac log opt hFn = (Some mw, None) ->
  strconv.minInt <= n <= strconv.maxInt ->
  Header_Get canon (http.Header r) "X-User-ID" = pretty n ->
  exists c,
    mw next r = next (http.WithContext r c) /\
    IsAuth (Some c) = ret true /\
    UserID (Some c) = ret (AnyString (pretty n)) /\
    UserIDInt (Some c) = ret n.
Proof.
  intros Hdev Hsup ->%NewAuth_development_inv Hn Hget; try done.
  pose proof (pretty_Z_nonempty n Hn) as Hne.
  set (c := extend UserRoleKey (Header_Get canon (http.Header r) "X-User-Role")
              (extend UserIDKey (pretty n)
                 (extend UserIDProviderKey
                    (Header_Get canon (http.Header r) "X-User-ID-Provider")
                    (http.Context r)))).
  assert (context.Value c UserIDKey = AnyString (pretty n)) as Huid.
  { unfold c. rewrite Value_extend_ne by done. rewrite Value_extend_eq.
    by rewrite bool_decide_true. }
  assert (call (Some (simple_identity canon)) r = ([], Returns (Some c, None))) as Hcall.
  { simpl. rewrite simple_identity_run, Hget. reflexivity. }
  exists c. split_and!.
  - rewrite auth_handler_ordinary by done.
    rewrite (authenticate_returns _ _ _ _ _ _ _ _ _ Hcall).
    rewrite bool_decide_false by done. simpl.
    rewrite Huid, bool_decide_false by done. simpl.
    destruct (AuthFailBlock opt); apply after_nil.
  - rewrite IsAuth_Some. simpl. rewrite Huid. by rewrite bool_decide_false.
  - unfold UserID, ctx_Value. by rewrite Huid.
  - rewrite UserIDInt_unfold, Huid. by rewrite Atoi_pretty.
Qed.

Lemma NewAuth_outcome ac log opt hFn mw next r :
  newAuth ac log opt hFn = (Some mw, None) ->
  mw next r =
    if snd (wrapped canon rails jwt ac hFn) && isUpgrade r then next r
    else authenticate ac log opt (fst (wrapped canon rails jwt ac hFn)) next r.
Proof. by intros ->%NewAuth_wrapped. Qed.

(** X15.  What a wrapper never does.  Whatever the strategy, the options
    and the request, the handler does one of three things after a sequence
    of events that does not depend on the downstream handler: it answers
    401 and returns; or it panics; or it hands over to the downstream
    handler, once, a request with the method, the address and the headers
    of the one it got. *)
Theorem wrapper_rejects_panics_or_forwards (ac : Auth) (log : option Logger)
    (opt : Options) (hFn : list (option HandlerFunc)) (mw : Middleware)
    (r : http.Request) :
  newAuth ac log opt hFn = (Some mw, None) ->
  exists tr,
    (forall next, mw next r = (tr ++ [EvHttpError "401 unauthorized" 401], Returns tt)) \/
    (exists why, forall next, mw next r = (tr, Panics why)) \/
    (exists r', http.Method r' = http.Method r /\ http.URL r' = http.URL r /\
                http.Header r' = http.Header r /\
                forall next, mw next r = after tr (next r')).
Proof.
  intros Hnew.
  pose proof (fun next => NewAuth_outcome _ _ _ _ _ next r Hnew) as Hmw.
  destruct (snd (wrapped canon rails jwt ac hFn) && isUpgrade r).
  { exists []. right. right. exists r. split_and!; try done.
    intros next. rewrite Hmw. by rewrite after_nil. }
  destruct (call (fst (wrapped canon rails jwt ac hFn)) r)
    as [tr [[c err] | why]] eqn:Hcall.
  2: { exists tr. right. left. exists why. intros next. rewrite Hmw.
       by apply authenticate_panics. }
  exists (tr ++ logged ac log err).
  assert (forall next, mw next r =
            after (tr ++ logged ac log err)
              (if bool_decide (err = Some Err401) then rejects
               else if AuthFailBlock opt then
                 match c with
                 | None => panic nil_deref
                 | Some _ => if has_UserID c then next (forwarded r c) else rejects
                 end
               else next (forwarded r c))) as Hall.
  { intros next. rewrite Hmw. by apply authenticate_returns. }
  assert (http.Method (forwarded r c) = http.Method r /\
          http.URL (forwarded r c) = http.URL r /\
          http.Header (forwarded r c) = http.Header r) as Hsame by by destruct c.
  assert (forall next,
            after (tr ++ logged ac log err) rejects
            = ((tr ++ logged ac log err) ++ [EvHttpError "401 unauthorized" 401],
               Returns tt)) as Hrej by done.
  case_bool_decide.
  { left. intros next. by rewrite Hall. }
  destruct (AuthFailBlock opt).
  2: { right. right. exists (forwarded r c). by destruct Hsame as (? & ? & ?). }
  destruct c as [c |].
  - destruct (has_UserID (Some c)).
    + right. right. exists (forwarded r (Some c)). by destruct Hsame as (? & ? & ?).
    + left. intros next. by rewrite Hall.
  - right. left. exists nil_deref. intros next. rewrite Hall.
    unfold after. simpl. by rewrite app_nil_r.
Qed.

(** X16.  Blocking keeps what it promises on the requests it forwards.
    With [AuthFailBlock] on, every request that reaches the strategy is
    answered with 401, or makes the handler panic, or reaches the
    downstream handler with a context on which [IsAuth] holds. *)
Theorem fail_block_forwards_only_authenticated (ac : Auth)
    (log : option Logger) (opt : Options) (hFn : list (option HandlerFunc))
    (mw : Middleware) (r : http.Request) :
  newAuth ac log opt hFn = (Some mw, None) ->
  AuthFailBlock opt = true ->
  snd (wrapped canon rails jwt ac hFn) && isUpgrade r = false ->
  exists tr,
    (forall next, mw next r = (tr ++ [EvHttpError "401 unauthorized" 401], Returns tt)) \/
    (exists why, forall next, mw next r = (tr, Panics why)) \/
    (exists c, IsAuth (Some c) = ret true /\
               forall next, mw next r = after tr (next (http.WithContext r c))).
Proof.
  intros Hnew Hblock Hby.
  pose proof (fun next => NewAuth_outcome _ _ _ _ _ next r Hnew) as Hmw.
  rewrite Hby in Hmw.
  destruct (call (fst (wrapped canon rails jwt ac hFn)) r)
    as [tr [[c err] | why]] eqn:Hcall.
  2: { exists tr. right. left. exists why. intros next. rewrite Hmw.
       by apply authenticate_panics. }
  exists (tr ++ logged ac log err).
  assert (forall next, mw next r =
            after (tr ++ logged ac log err)
              (if bool_decide (err = Some Err401) then rejects
               else match c with
                    | None => panic nil_deref
                    | Some _ => if has_UserID c then next (forwarded r c) else rejects
                    end)) as Hall.
  { intros next. rewrite Hmw, (authenticate_returns _ _ _ _ _ _ _ _ _ Hcall).
    by rewrite Hblock. }
  case_bool_decide.
  { left. intros next. by rewrite Hall. }
  destruct c as [c |].
  - destruct (has_UserID (Some c)) eqn:Hhas.
    + right. right. exists c. split; [| done]. by rewrite IsAuth_Some, Hhas.
    + left. intros next. by rewrite Hall.
  - right. left. exists nil_deref. intros next. rewrite Hall.
    unfold after. simpl. by rewrite app_nil_r.
Qed.

(** X17.  The decision on a result that is not the sentinel.  When the
    strategy of a wrapper that [NewAuth] built returns without the
    sentinel, and blocking is off or a context was returned, the wrapper
    logs the error if there is one and a logger, and then forwards when
    blocking is off or UserID is set in the returned context, with that
    context attached if there is one, and answers 401 otherwise. *)
Theorem wrapper_decides_by_policy_and_identity (ac : Auth)
    (log : option Logger) (opt : Options) (hFn : list (option HandlerFunc))
    (mw : Middleware) (next : Handler) (r : http.Request)
    (tr : list event) (c : option context.Context) (err : option error) :
  newAuth ac log opt hFn = (Some mw, None) ->
  snd (wrapped canon rails jwt ac hFn) && isUpgrade r = false ->
  call (fst (wrapped canon rails jwt ac hFn)) r = (tr, Returns (c, err)) ->
  err <> Some Err401 ->
  AuthFailBlock opt = false \/ c <> None ->
  mw next r =
    after (tr ++ logged ac log err)
      (if negb (AuthFailBlock opt) || has_UserID c
       then next (forwarded r c) else rejects).
Proof.
  intros Hnew Hby Hcall Herr Hc.
  rewrite (NewAuth_outcome _ _ _ _ _ next r Hnew), Hby.
  rewrite (authenticate_returns _ _ _ _ _ _ _ _ _ Hcall).
  rewrite bool_decide_false by done. f_equal.
  destruct (AuthFailBlock opt); [| done]. simpl.
  destruct c; [done |]. by destruct Hc.
Qed.

End WrapperBehaviour.

(** ** Instances of the properties above *)

Lemma newRemoteAPI_set_headers_witness :
  exists ra,
    newRemoteAPI map_to_list users_conf = (Some ra, None) /\
    length (remote.SetHeaders ra) = 2%nat.
Proof.
  eexists. split; [apply newRemoteAPI_closed_form |].
  destruct (newRemoteAPI_set_headers map_to_list (fun m => reflexivity _)
              users_conf users_headers _ eq_refl
              (newRemoteAPI_closed_form map_to_list users_conf))
    as (_ & Hlen & _).
  exact Hlen.
Defined.

Lemma Resolve_depends_on_url_debug_headers_witness :
  let r' := remote.mkAPI "http://users/$id/profile" false ["Cookie"]
              [remote.mkHdr "Accept" "application/json"] in
  Resolve same_key parses one_user no_dump no_dump starts_as_object
    users_api (Some context.Background) (remote.mkReq "42")
  = Resolve same_key parses one_user no_dump no_dump starts_as_object
      r' (Some context.Background) (remote.mkReq "42").
Proof.
  cbv zeta.
  apply (Resolve_depends_on_url_debug_headers same_key parses one_user no_dump
           no_dump starts_as_object users_api
           (remote.mkAPI "http://users/$id/profile" false ["Cookie"]
              [remote.mkHdr "Accept" "application/json"])).
  - reflexivity.
  - reflexivity.
  - reflexivity.
  - apply NoDup_singleton.
Defined.

Lemma newRemoteAPI_order_does_not_show_witness :
  exists ra1 ra2,
    newRemoteAPI map_to_list users_conf = (Some ra1, None) /\
    newRemoteAPI backwards users_conf = (Some ra2, None) /\
    Resolve same_key parses one_user no_dump no_dump starts_as_object
      ra1 (Some context.Background) (remote.mkReq "42")
    = Resolve same_key parses one_user no_dump no_dump starts_as_object
        ra2 (Some context.Background) (remote.mkReq "42").
Proof.
  eexists _, _.
  split; [apply newRemoteAPI_closed_form |].
  split; [apply newRemoteAPI_closed_form |].
  apply (newRemoteAPI_order_does_not_show same_key parses one_user no_dump
           no_dump starts_as_object map_to_list backwards users_conf).
  - reflexivity.
  - intros m. apply reverse_Permutation.
  - intros k1 k2 _ _ Hk. exact Hk.
  - apply newRemoteAPI_closed_form.
  - apply newRemoteAPI_closed_form.
Defined.

Lemma Resolve_debug_is_transparent_witness :
  result (Resolve same_key parses one_user no_dump no_dump starts_as_object
            (with_debug true users_api) (Some context.Background)
            (remote.mkReq "42"))
  = Returns (None, Some (ErrOther "no dump")).
Proof.
  destruct (Resolve_debug_is_transparent same_key parses one_user no_dump no_dump
              starts_as_object users_api context.Background (remote.mkReq "42")
              eq_refl)
    as (_ & _ & Hdump & _).
  rewrite (Hdump (remote.mkResponse 200 ("{}", None)) (ErrOther "no dump"));
    [reflexivity | by vm_compute | reflexivity].
Defined.

Lemma Resolve_reports_first_failure_witness :
  result (Resolve same_key parses one_user no_dump no_dump starts_as_object
            users_api (Some context.Background) (remote.mkReq "7"))
  = Returns (None, Some (ErrOther "server responded with a 404")).
Proof.
  destruct (Resolve_reports_first_failure same_key parses one_user no_dump no_dump
              starts_as_object users_api context.Background (remote.mkReq "7")
              eq_refl eq_refl)
    as (_ & Hstatus & _).
  rewrite (Hstatus (remote.mkResponse 404 ("not found", None)));
    [reflexivity | by vm_compute | by vm_compute].
Defined.

Lemma header_strategy_rejects_missing_header_witness :
  header_check same_key (Header (header_auth "X-Api-Key" "secret" false))
    (request_with [("Accept", ["*/*"])])
  = ret (None, Some Err401).
Proof.
  apply (header_strategy_rejects_missing_header same_key
           (header_auth "X-Api-Key" "secret" false)).
  - reflexivity.
  - by vm_compute.
Defined.

Lemma header_auth_without_blocking_witness :
  let ac := header_auth "X-Api-Key" "secret" false in
  let r := request_with [("X-Api-Key", ["secret"])] in
  auth_handler asks_upgrade ac None (mkOptions false)
    (Some (header_check same_key (Header ac))) false downstream r
  = if header_passes same_key (Header ac) r then downstream r
    else (logged ac None (Some Err401) ++ [EvHttpError "401 unauthorized" 401],
          Returns tt).
Proof.
  cbv zeta.
  apply (header_auth_without_blocking same_key asks_upgrade unavailable unavailable
           (header_auth "X-Api-Key" "secret" false) None (mkOptions false) []);
    reflexivity.
Defined.

Lemma header_auth_with_blocking_witness :
  let ac := header_auth "X-Api-Key" "secret" false in
  let r := request_with [("X-Api-Key", ["wrong"])] in
  auth_handler asks_upgrade ac None (mkOptions true)
    (Some (header_check same_key (Header ac))) false downstream r
  = if header_passes same_key (Header ac) r then ([], Panics nil_deref)
    else (logged ac None (Some Err401) ++ [EvHttpError "401 unauthorized" 401],
          Returns tt).
Proof.
  cbv zeta.
  apply (header_auth_with_blocking same_key asks_upgrade unavailable unavailable
           (header_auth "X-Api-Key" "secret" false) None (mkOptions true) []);
    reflexivity.
Defined.

Lemma development_user_id_round_trip_witness :
  let r := request_with [("X-User-ID", ["42"])] in
  exists c,
    auth_handler asks_upgrade (typed_auth true "jwt") None (mkOptions true)
      (Some (simple_identity same_key)) false downstream r
    = downstream (http.WithContext r c) /\
    IsAuth (Some c) = ret true /\
    UserID (Some c) = ret (AnyString (pretty 42)) /\
    UserIDInt (Some c) = ret 42.
Proof.
  cbv zeta.
  apply (development_user_id_round_trip same_key asks_upgrade unavailable
           unavailable (typed_auth true "jwt") None (mkOptions true) []).
  - reflexivity.
  - reflexivity.
  - reflexivity.
  - unfold strconv.minInt, strconv.maxInt. lia.
  - by vm_compute.
Defined.

Lemma wrapper_rejects_panics_or_forwards_witness :
  let r := request_with [] in
  let mw := auth_handler asks_upgrade (typed_auth true "") None (mkOptions true)
              (Some (simple_identity same_key)) false in
  exists tr,
    (forall next, mw next r = (tr ++ [EvHttpError "401 unauthorized" 401], Returns tt)) \/
    (exists why, forall next, mw next r = (tr, Panics why)) \/
    (exists r', http.Method r' = http.Method r /\ http.URL r' = http.URL r /\
                http.Header r' = http.Header r /\
                forall next, mw next r = after tr (next r')).
Proof.
  cbv zeta.
  apply (wrapper_rejects_panics_or_forwards same_key asks_upgrade unavailable
           unavailable (typed_auth true "") None (mkOptions true) []).
  reflexivity.
Defined.

Lemma fail_block_forwards_only_authenticated_witness :
  let r := request_with [] in
  let mw := auth_handler asks_upgrade (typed_auth true "") None (mkOptions true)
              (Some (simple_identity same_key)) false in
  exists tr,
    (forall next, mw next r = (tr ++ [EvHttpError "401 unauthorized" 401], Returns tt)) \/
    (exists why, forall next, mw next r = (tr, Panics why)) \/
    (exists c, IsAuth (Some c) = ret true /\
               forall next, mw next r = after tr (next (http.WithContext r c))).
Proof.
  cbv zeta.
  apply (fail_block_forwards_only_authenticated same_key asks_upgrade unavailable
           unavailable (typed_auth true "") None (mkOptions true) []);
    reflexivity.
Defined.

Lemma wrapper_decides_by_policy_and_identity_witness :
  let r := request_with [] in
  auth_handler asks_upgrade (typed_auth true "") None (mkOptions true)
    (Some (simple_identity same_key)) false downstream r
  = after ([] ++ logged (typed_auth true "") None None)
      (if negb (AuthFailBlock (mkOptions true))
          || has_UserID (Some context.Background)
       then downstream (forwarded r (Some context.Background)) else rejects).
Proof.
  cbv zeta.
  apply (wrapper_decides_by_policy_and_identity same_key asks_upgrade unavailable
           unavailable (typed_auth true "") None (mkOptions true) []).
  - reflexivity.
  - reflexivity.
  - by vm_compute.
  - discriminate.
  - right. discriminate.
Defined.
